(** * Governed replay: ledger, approvals, commit test, compensation

    A shallow embedding of the two replay scripts of the repository,
    [Agent_Misbehavior_Replay.py] (module [AMR]) and [FINTECH_ONLY.py]
    (module [FO]): the mock external systems with their idempotency map,
    the approval store and demo policy of [NuvallaHook], the adapter
    interface of [NuvallaAdapter], and the two replay loops.

    Python objects that are mutated in place (the [MockSystems] and hook
    instances) are threaded through the functions as explicit state.
    Exceptions are values of [pyexn]; a computation that may raise returns
    [res A].  The two sources of nondeterminism, [uuid.uuid4()] and
    [time.time()], are read from an explicit environment [Env]. *)

From Stdlib Require Import ZArith Lia Ascii String.
From stdpp Require Import gmap strings list fin_maps pretty.

#[local] Set Warnings "-register-all".

(** ** Python values *)

(** Scalars: the values that occur in [params] throughout the traces
    ([None], booleans, integers, strings).  Floats and user objects are
    outside the model. *)
Inductive pyatom :=
| PNone
| PBool (b : bool)
| PInt (z : Z)
| PStr (s : string).

(** Values stored in receipts: scalars, lists and string-keyed dicts.
    Dicts are compared up to key order, as Python's [==] does. *)
Inductive pyval :=
| VAtom (a : pyatom)
| VList (l : list pyval)
| VDict (d : gmap string pyval).

Definition VBool (b : bool) : pyval := VAtom (PBool b).
Definition VInt (z : Z) : pyval := VAtom (PInt z).
Definition VStr (s : string) : pyval := VAtom (PStr s).

(** An exception, identified by the name of its class. *)
Inductive pyexn := PyExn (cls : string).

Definition exn_name (e : pyexn) : string := let 'PyExn c := e in c.

Definition TypeError : pyexn := PyExn "TypeError".
Definition ValueError : pyexn := PyExn "ValueError".
Definition NotImplementedError : pyexn := PyExn "NotImplementedError".

(** Computations that return or raise. *)
Definition res (A : Type) : Type := (pyexn + A)%type.

Definition bind {A B : Type} (c : res A) (k : A -> res B) : res B :=
  match c with
  | inl e => inl e
  | inr a => k a
  end.

Notation "'do' x <~ c ; k" := (bind c (fun x => k))
  (at level 10, x name, c at level 100, k at level 200).

(** [bool(v)] and the truth test of [if v] / [not v]. *)
Definition py_truthy (v : pyatom) : bool :=
  match v with
  | PNone => false
  | PBool b => b
  | PInt z => negb (z =? 0)%Z
  | PStr s => negb (String.eqb s "")
  end.

(** [str(v)]. *)
Definition py_str (v : pyatom) : string :=
  match v with
  | PNone => "None"
  | PBool true => "True"
  | PBool false => "False"
  | PInt z => pretty z
  | PStr s => s
  end.

(** *** [int(s)] on a string: surrounding white space, an optional sign,
    decimal digits with single underscores between digits.  Strings are
    read as ASCII text. *)
Definition is_space (a : ascii) : bool :=
  let n := nat_of_ascii a in
  ((9 <=? n) && (n <=? 13) || (28 <=? n) && (n <=? 32))%nat.

Definition digit_of (a : ascii) : option Z :=
  let n := nat_of_ascii a in
  if ((48 <=? n) && (n <=? 57))%nat then Some (Z.of_nat n - 48)%Z else None.

Fixpoint lstrip (s : string) : string :=
  match s with
  | String a s' => if is_space a then lstrip s' else s
  | EmptyString => EmptyString
  end.

Fixpoint rstrip (s : string) : string :=
  match s with
  | String a s' =>
      match rstrip s' with
      | EmptyString => if is_space a then EmptyString else String a EmptyString
      | r => String a r
      end
  | EmptyString => EmptyString
  end.

Fixpoint parse_digits (s : string) (acc : Z) (after_digit : bool) : option Z :=
  match s with
  | EmptyString => if after_digit then Some acc else None
  | String a s' =>
      match digit_of a with
      | Some d => parse_digits s' (10 * acc + d)%Z true
      | None =>
          if Ascii.eqb a "_"%char && after_digit
          then parse_digits s' acc false
          else None
      end
  end.

Definition int_of_str (s : string) : option Z :=
  match lstrip (rstrip s) with
  | String "+" r => parse_digits r 0%Z false
  | String "-" r => Z.opp <$> parse_digits r 0%Z false
  | r => parse_digits r 0%Z false
  end.

(** [int(v)]. *)
Definition py_int (v : pyatom) : res Z :=
  match v with
  | PNone => inl TypeError
  | PBool b => inr (if b then 1 else 0)%Z
  | PInt z => inr z
  | PStr s =>
      match int_of_str s with
      | Some z => inr z
      | None => inl ValueError
      end
  end.

(** [c in s] for a one-character [c]. *)
Fixpoint contains_char (c : ascii) (s : string) : bool :=
  match s with
  | EmptyString => false
  | String a s' => Ascii.eqb a c || contains_char c s'
  end.

(** [s.split(c)] for a one-character separator [c]. *)
Fixpoint split_char (c : ascii) (s : string) : list string :=
  match s with
  | EmptyString => [EmptyString]
  | String a s' =>
      if Ascii.eqb a c then EmptyString :: split_char c s'
      else
        match split_char c s' with
        | h :: t => String a h :: t
        | [] => [String a EmptyString]
        end
  end.

(** [d.get(k, dflt)]. *)
Definition dict_get {V : Type} (d : gmap string V) (k : string) (dflt : V) : V :=
  default dflt (d !! k).

(** ** The trace model shared by both files *)

Module ToolCall.
Record t := mk {
  action_id : string;
  actor : string;
  system : string;
  operation : string;
  params : gmap string pyatom;
  txn_id : string;
  created_at_ms : Z
}.
End ToolCall.

Module Approval.
Record t := mk {
  action_id : string;
  approved_by : string;
  role : string;
  method : string;
  approved_at_ms : Z
}.

(** The instance attributes, as [a.__dict__] lists them. *)
Definition fields : list string :=
  ["action_id"; "approved_by"; "role"; "method"; "approved_at_ms"]%string.

Definition __dict__ (a : t) : gmap string pyval :=
  <["action_id" := VStr (action_id a)]>
  (<["approved_by" := VStr (approved_by a)]>
  (<["role" := VStr (role a)]>
  (<["method" := VStr (method a)]>
  (<["approved_at_ms" := VInt (approved_at_ms a)]> ∅)))).
End Approval.

(** What one execution reads from the outside world: the value of
    [uuid.uuid4().hex] and of [int(time.time() * 1000)]. *)
Record Env := mkEnv {
  uuid4_hex : string;
  time_ms : Z
}.

(** The result dictionary of an execution,
    [{"ok": .., "external_id": .., "idempotent_replay": ..}]. *)
Record ExecResult := mkExec {
  ok : bool;
  external_id : string;
  idempotent_replay : bool
}.

(** The result dictionary of an undo: [{"ok": False, "error": e}] or
    [{"ok": True, "undo_id": u}]. *)
Inductive UndoResult :=
| UndoError (error : string)
| UndoOk (undo_id : string).

Definition undo_dict (r : UndoResult) : gmap string pyval :=
  match r with
  | UndoError e => <["ok" := VBool false]> (<["error" := VStr e]> ∅)
  | UndoOk u => <["ok" := VBool true]> (<["undo_id" := VStr u]> ∅)
  end.

(** A record of the mock world,
    [{"operation": .., "params": .., "created_at_ms": .., "deleted": ..}]. *)
Record SysRecord := mkRec {
  rec_operation : string;
  rec_params : gmap string pyatom;
  rec_created_at_ms : Z;
  deleted : bool
}.

Definition mark_deleted (r : SysRecord) : SysRecord :=
  {| rec_operation := rec_operation r;
     rec_params := rec_params r;
     rec_created_at_ms := rec_created_at_ms r;
     deleted := true |}.

(** [f"{system}:{uuid.uuid4().hex[:10]}"] *)
Definition _new_id (env : Env) (system : string) : string :=
  system +:+ ":" +:+ String.substring 0 10 (uuid4_hex env).

(** The mock world: [state] maps a system to its records by external id;
    the second map is the idempotency index, action id to external id.
    [MockSystems] is the same class in both files, up to the name of the
    index ([idempotency] in one, [action_to_external] in the other). *)
Record MockSystems := mkSys {
  state : gmap string (gmap string SysRecord);
  idempotency : gmap string string
}.

Definition MockSystems_init : MockSystems :=
  {| state := ∅; idempotency := ∅ |}.

(** [self.state.get(system, {}).get(external_id)] *)
Definition get_record (self : MockSystems) (system external_id : string)
  : option SysRecord :=
  dict_get (state self) system ∅ !! external_id.

(** [self.state.setdefault(system, {})[external_id] = rec] *)
Definition state_store (st : gmap string (gmap string SysRecord))
    (system external_id : string) (rec : SysRecord)
  : gmap string (gmap string SysRecord) :=
  <[system := <[external_id := rec]> (dict_get st system ∅)]> st.

(** The compensation flag both replay loops read,
    [bool(call.params.get("force_post_commit_failure", False))]. *)
Definition force_post_commit_failure (call : ToolCall.t) : bool :=
  py_truthy (dict_get (ToolCall.params call) "force_post_commit_failure" (PBool false)).

(** ** Agent_Misbehavior_Replay.py *)

Module AMR.

Inductive Decision := COMMIT | BLOCK | REQUIRE_APPROVAL | UNDO.

Record ScenarioTrace := mkTrace {
  name : string;
  domain : string;
  story : string;
  tool_calls : list ToolCall.t;
  approvals : list Approval.t
}.

(** [MockSystems.execute_direct] *)
Definition execute_direct (env : Env) (call : ToolCall.t) (self : MockSystems)
  : ExecResult * MockSystems :=
  match idempotency self !! ToolCall.action_id call with
  | Some ext_id =>
      ({| ok := true; external_id := ext_id; idempotent_replay := true |}, self)
  | None =>
      let ext_id := _new_id env (ToolCall.system call) in
      let rec := {| rec_operation := ToolCall.operation call;
                    rec_params := ToolCall.params call;
                    rec_created_at_ms := time_ms env;
                    deleted := false |} in
      ({| ok := true; external_id := ext_id; idempotent_replay := false |},
       {| state := state_store (state self) (ToolCall.system call) ext_id rec;
          idempotency := <[ToolCall.action_id call := ext_id]> (idempotency self) |})
  end.

(** [MockSystems.undo].  A stored record is a dict with four keys, so
    [not rec] holds only when the lookup gave [None]. *)
Definition undo (call : ToolCall.t) (committed_external_id : string)
    (self : MockSystems) : UndoResult * MockSystems :=
  match get_record self (ToolCall.system call) committed_external_id with
  | None => (UndoError "record_not_found", self)
  | Some rec =>
      (UndoOk ("undo:" +:+ committed_external_id),
       {| state := state_store (state self) (ToolCall.system call)
                     committed_external_id (mark_deleted rec);
          idempotency := idempotency self |})
  end.

Record NuvallaEval := mkEval {
  decision : Decision;
  message : string;
  commit_allowed : bool;
  required_approvals : Z;
  receipt : gmap string pyval
}.

(** The interface the replay loop uses of its [hook] argument: the class
    is meant to be replaced by calls into a real engine, so the loop is
    modelled over any implementation of the two methods.  An
    implementation may keep state and [evaluate] may raise. *)
Class Hook (H : Type) := {
  hook_approve : Approval.t -> H -> H;
  hook_evaluate : ToolCall.t -> H -> res NuvallaEval * H
}.

(** *** The shipped [NuvallaHook] and its demo policy *)
Module NuvallaHook.

Record t := mk { _approvals_by_action : gmap string (list Approval.t) }.

Definition init : t := {| _approvals_by_action := ∅ |}.

(** [self._approvals_by_action.setdefault(a.action_id, []).append(a)] *)
Definition approve (approval : Approval.t) (self : t) : t :=
  let key := Approval.action_id approval in
  {| _approvals_by_action :=
       <[key := dict_get (_approvals_by_action self) key [] ++ [approval]]>
         (_approvals_by_action self) |}.

(** [self._approvals_by_action.get(action_id, [])], the read that
    opens [evaluate]. *)
Definition approvals_for (self : t) (action_id : string) : list Approval.t :=
  dict_get (_approvals_by_action self) action_id [].

Definition approvals_receipt (approvals : list Approval.t) : pyval :=
  VList ((fun a => VDict (Approval.__dict__ a)) <$> approvals).

Definition is_nil {A : Type} (l : list A) : bool :=
  match l with [] => true | _ => false end.

Definition evaluate (call : ToolCall.t) (self : t) : res NuvallaEval :=
  let approvals := approvals_for self (ToolCall.action_id call) in
  let system := ToolCall.system call in
  let operation := ToolCall.operation call in
  let params := ToolCall.params call in
  if String.eqb system "stripe" && String.eqb operation "payment.execute" then
    do amt <~ py_int (dict_get params "amount_usd" (PInt 0));
    if (10000 <? amt)%Z && is_nil approvals then
      inr {| decision := REQUIRE_APPROVAL;
             message := "Payment $" +:+ pretty amt +:+ " requires CFO approval";
             commit_allowed := false;
             required_approvals := 1;
             receipt := <["policy" := VStr "payment_threshold"]>
                        (<["amount_usd" := VInt amt]> ∅) |}
    else
      inr {| decision := COMMIT;
             message := "Payment $" +:+ pretty amt +:+ " allowed (policy ok)";
             commit_allowed := true;
             required_approvals := 0;
             receipt := <["policy" := VStr "payment_threshold"]>
                        (<["amount_usd" := VInt amt]>
                        (<["approvals" := approvals_receipt approvals]> ∅)) |}
  else if String.eqb system "netsuite" && String.eqb operation "vendor.create" then
    if negb (py_truthy (dict_get params "kyc_passed" (PBool false))) then
      inr {| decision := BLOCK;
             message := "Vendor creation blocked: KYC not passed";
             commit_allowed := false;
             required_approvals := 0;
             receipt := <["policy" := VStr "vendor_kyc_required"]> ∅ |}
    else
      inr {| decision := COMMIT;
             message := "Vendor creation allowed: KYC passed";
             commit_allowed := true;
             required_approvals := 0;
             receipt := <["policy" := VStr "vendor_kyc_required"]> ∅ |}
  else if String.eqb system "m365" && String.eqb operation "email.send" then
    let to := py_str (dict_get params "to" (PStr "")) in
    let contains_phi := py_truthy (dict_get params "contains_phi" (PBool false)) in
    let allow_domain := "acmefinco.com" in
    let domain :=
      if contains_char "@" to then List.last (split_char "@" to) "" else "" in
    if contains_phi && negb (String.eqb domain allow_domain) then
      inr {| decision := BLOCK;
             message := "Email blocked: external PHI (HIPAA rule)";
             commit_allowed := false;
             required_approvals := 0;
             receipt := <["policy" := VStr "hipaa_no_external_phi"]>
                        (<["to" := VStr to]> ∅) |}
    else if negb (String.eqb domain allow_domain) then
      inr {| decision := BLOCK;
             message := "Email blocked: domain not allowlisted";
             commit_allowed := false;
             required_approvals := 0;
             receipt := <["policy" := VStr "email_allowlist"]>
                        (<["to" := VStr to]> ∅) |}
    else
      inr {| decision := COMMIT;
             message := "Email allowed (domain allowlist ok)";
             commit_allowed := true;
             required_approvals := 0;
             receipt := <["policy" := VStr "email_allowlist"]>
                        (<["to" := VStr to]> ∅) |}
  else if String.eqb system "ehr" && String.eqb operation "medication.order" then
    if is_nil approvals then
      inr {| decision := REQUIRE_APPROVAL;
             message := "Medication order requires attending sign-off";
             commit_allowed := false;
             required_approvals := 1;
             receipt := <["policy" := VStr "ehr_attending_signoff"]> ∅ |}
    else
      inr {| decision := COMMIT;
             message := "Medication order approved and allowed";
             commit_allowed := true;
             required_approvals := 0;
             receipt := <["policy" := VStr "ehr_attending_signoff"]>
                        (<["approvals" := approvals_receipt approvals]> ∅) |}
  else
    inr {| decision := COMMIT;
           message := "Allowed (no matching restrictive policy)";
           commit_allowed := true;
           required_approvals := 0;
           receipt := <["policy" := VStr "default_allow"]> ∅ |}.

End NuvallaHook.

(** The shipped hook implements the interface; its [evaluate] only reads
    the store. *)
#[global] Instance NuvallaHook_Hook : Hook NuvallaHook.t := {|
  hook_approve := NuvallaHook.approve;
  hook_evaluate := fun call self => (NuvallaHook.evaluate call self, self)
|}.

(** *** The replay loop of [run_trace_with_nuvalla] *)

#[global] Instance Decision_eq_dec : EqDecision Decision.
Proof. solve_decision. Defined.

(** What one iteration hands to [print_nuvalla_response]. *)
Record StepOutput := mkOut {
  evalr : NuvallaEval;
  exec_result : option ExecResult
}.

(** The receipt [{**receipt, "post_commit_failure": True, "undo": undo_res}]. *)
Definition undo_receipt (receipt : gmap string pyval) (undo_res : UndoResult)
  : gmap string pyval :=
  <["undo" := VDict (undo_dict undo_res)]>
    (<["post_commit_failure" := VBool true]> receipt).

Section Replay.
Context {H : Type} `{!Hook H}.

(** The body of the loop over [trace.tool_calls], for one call. *)
Definition nuvalla_step (env : Env) (call : ToolCall.t)
    (systems : MockSystems) (hook : H)
  : res StepOutput * MockSystems * H :=
  let '(r, hook) := hook_evaluate call hook in
  match r with
  | inl e => (inl e, systems, hook)
  | inr evalr =>
      if bool_decide (decision evalr = COMMIT) && commit_allowed evalr then
        let '(exec_result, systems) := execute_direct env call systems in
        if force_post_commit_failure call then
          let '(undo_res, systems) :=
            undo call (external_id exec_result) systems in
          let evalr :=
            {| decision := UNDO;
               message := "Post-commit failure detected; compensating undo executed";
               commit_allowed := false;
               required_approvals := 0;
               receipt := undo_receipt (receipt evalr) undo_res |} in
          (inr {| evalr := evalr; exec_result := Some exec_result |}, systems, hook)
        else
          (inr {| evalr := evalr; exec_result := Some exec_result |}, systems, hook)
      else
        (inr {| evalr := evalr; exec_result := None |}, systems, hook)
  end.

(** The outcome of a run: the outputs printed step by step, the
    exception that ended the run if one was raised, and the two
    objects the caller passed in, as the run left them. *)
Record RunResult := mkRun {
  printed : list StepOutput;
  raised : option pyexn;
  systems_after : MockSystems;
  hook_after : H
}.

(** [for call in trace.tool_calls: ...]; [env i] is what the [i]-th
    iteration reads from the outside world. *)
Fixpoint run_calls (env : nat -> Env) (calls : list ToolCall.t)
    (systems : MockSystems) (hook : H) : RunResult :=
  match calls with
  | [] => {| printed := []; raised := None;
             systems_after := systems; hook_after := hook |}
  | call :: rest =>
      match nuvalla_step (env 0%nat) call systems hook with
      | (inl e, systems, hook) =>
          {| printed := []; raised := Some e;
             systems_after := systems; hook_after := hook |}
      | (inr out, systems, hook) =>
          let r := run_calls (fun i => env (S i)) rest systems hook in
          {| printed := out :: printed r; raised := raised r;
             systems_after := systems_after r; hook_after := hook_after r |}
      end
  end.

(** [for a in trace.approvals: hook.approve(a)] *)
Definition feed_approvals (approvals : list Approval.t) (hook : H) : H :=
  foldl (fun h a => hook_approve a h) hook approvals.

Definition run_trace_with_nuvalla (env : nat -> Env) (trace : ScenarioTrace)
    (systems : MockSystems) (hook : H) : RunResult :=
  run_calls env (tool_calls trace) systems (feed_approvals (approvals trace) hook).

End Replay.

Arguments RunResult H : clear implicits.

(** [run_trace_direct]: every call is executed, no policy. *)
Fixpoint run_trace_direct_calls (env : nat -> Env) (calls : list ToolCall.t)
    (systems : MockSystems) : list ExecResult * MockSystems :=
  match calls with
  | [] => ([], systems)
  | call :: rest =>
      let '(result, systems) := execute_direct (env 0%nat) call systems in
      let '(results, systems) :=
        run_trace_direct_calls (fun i => env (S i)) rest systems in
      (result :: results, systems)
  end.

(** *** What the loop prints for a step *)

(** The line [print_nuvalla_response] prints, named by the branch that
    prints it and carrying the values the line interpolates. *)
Inductive Banner :=
| PrintBlocked (message : string)
| PrintPendingApproval (message : string) (needed : Z)
| PrintCommitted (message : string) (external_id : option string)
| PrintUndo (message : string).

(** [print_nuvalla_response]: the line chosen by the decision, then the
    receipt under [Debug receipt].  A result dictionary is never empty, so
    [if exec_result] tests for [None]. *)
Definition print_nuvalla_response (evalr : NuvallaEval)
    (exec_result : option ExecResult) : Banner * gmap string pyval :=
  (match decision evalr with
   | BLOCK => PrintBlocked (message evalr)
   | REQUIRE_APPROVAL => PrintPendingApproval (message evalr) (required_approvals evalr)
   | COMMIT => PrintCommitted (message evalr) (external_id <$> exec_result)
   | UNDO => PrintUndo (message evalr)
   end,
   receipt evalr).

(** The lines of a run, one per printed step. *)
Definition printed_banners {H : Type} (r : RunResult H) : list Banner :=
  (fun o => (print_nuvalla_response (evalr o) (exec_result o)).1) <$> printed r.

End AMR.

(** ** FINTECH_ONLY.py *)

Module FO.

Inductive Decision := COMMIT | BLOCK | PENDING | UNDO.

#[global] Instance Decision_eq_dec : EqDecision Decision.
Proof. solve_decision. Defined.

Record ScenarioTrace := mkTrace {
  name : string;
  story : string;
  tool_calls : list ToolCall.t;
  approvals_timeline : list Approval.t
}.

(** The idempotency index is called [action_to_external] in this file. *)
Abbreviation action_to_external := idempotency (only parsing).

(** [MockSystems.execute] *)
Definition execute (env : Env) (call : ToolCall.t) (self : MockSystems)
  : ExecResult * MockSystems :=
  match action_to_external self !! ToolCall.action_id call with
  | Some ext =>
      ({| ok := true; external_id := ext; idempotent_replay := true |}, self)
  | None =>
      let ext := _new_id env (ToolCall.system call) in
      ({| ok := true; external_id := ext; idempotent_replay := false |},
       {| state := state_store (state self) (ToolCall.system call) ext
                     {| rec_operation := ToolCall.operation call;
                        rec_params := ToolCall.params call;
                        rec_created_at_ms := time_ms env;
                        deleted := false |};
          action_to_external :=
            <[ToolCall.action_id call := ext]> (action_to_external self) |})
  end.

(** [MockSystems.undo] *)
Definition undo (call : ToolCall.t) (external_id : string) (self : MockSystems)
  : UndoResult * MockSystems :=
  match get_record self (ToolCall.system call) external_id with
  | None => (UndoError "record_not_found", self)
  | Some rec =>
      (UndoOk ("undo:" +:+ external_id),
       {| state := state_store (state self) (ToolCall.system call)
                     external_id (mark_deleted rec);
          action_to_external := action_to_external self |})
  end.

Record NuvallaReceipt := mkReceipt {
  decision : Decision;
  status : string;
  message : string;
  receipt : gmap string pyval
}.

(** The two calls the runner makes on its [adapter] argument.  The class
    is the place where an engine is wired in, so the runner is modelled
    over any implementation; [intercept] may raise. *)
Class Adapter (A : Type) := {
  adapter_submit_approval : Approval.t -> A -> A;
  adapter_intercept : ToolCall.t -> A -> res NuvallaReceipt * A
}.

(** *** The shipped [NuvallaAdapter]: both methods are left to be wired. *)
Module NuvallaAdapter.
Record t (E : Type) := mk { nuvalla : E }.
Arguments mk {E} _.
Arguments nuvalla {E} _.

(** the body is [pass] *)
Definition submit_approval {E} (approval : Approval.t) (self : t E) : t E :=
  self.

Definition intercept {E} (call : ToolCall.t) (self : t E)
  : res NuvallaReceipt :=
  inl NotImplementedError.
End NuvallaAdapter.

#[global] Instance NuvallaAdapter_Adapter {E} : Adapter (NuvallaAdapter.t E) := {|
  adapter_submit_approval := NuvallaAdapter.submit_approval;
  adapter_intercept := fun call self => (NuvallaAdapter.intercept call self, self)
|}.

(** *** The delivery schedule *)

(** [getattr(a, name)] on the data attributes of an [Approval]. *)
Definition Approval_getattr (a : Approval.t) (name : string) : option pyatom :=
  if String.eqb name "action_id" then Some (PStr (Approval.action_id a))
  else if String.eqb name "approved_by" then Some (PStr (Approval.approved_by a))
  else if String.eqb name "role" then Some (PStr (Approval.role a))
  else if String.eqb name "method" then Some (PStr (Approval.method a))
  else if String.eqb name "approved_at_ms" then Some (PInt (Approval.approved_at_ms a))
  else None.

Definition Approval_hasattr (a : Approval.t) (name : string) : bool :=
  bool_decide (is_Some (Approval_getattr a name)).

(** [int(getattr(a, "deliver_after_step", 0)) if hasattr(a, "deliver_after_step") else 0] *)
Definition deliver_after (a : Approval.t) : res Z :=
  if Approval_hasattr a "deliver_after_step"
  then py_int (default (PInt 0) (Approval_getattr a "deliver_after_step"))
  else inr 0%Z.

(** [approvals_schedule]: the timeline, each approval paired with its index. *)
Fixpoint build_schedule (timeline : list Approval.t) : res (list (Z * Approval.t)) :=
  match timeline with
  | [] => inr []
  | a :: rest =>
      do d <~ deliver_after a;
      do sched <~ build_schedule rest;
      inr ((d, a) :: sched)
  end.

(** [approvals_by_step.setdefault(step_idx, []).append(appr)], over the schedule. *)
Definition index_by_step (schedule : list (Z * Approval.t))
  : gmap Z (list Approval.t) :=
  foldl (fun m '(step_idx, appr) =>
           <[step_idx := default [] (m !! step_idx) ++ [appr]]> m)
        ∅ schedule.

(** *** The governed run of one trace *)

(** What the run does that an observer can see, in order: an approval
    printed and submitted, a call printed, a result printed. *)
Inductive Event :=
| EvApproval (a : Approval.t)
| EvCall (call : ToolCall.t)
| EvResult (receipt : NuvallaReceipt) (commit_exec : option ExecResult).

Section Replay.
Context {A : Type} `{!Adapter A}.

Record RunResult := mkRun {
  events : list Event;
  raised : option pyexn;
  systems_after : MockSystems;
  adapter_after : A
}.

(** [for a in approvals_by_step.get(k, []): print_approval(a); adapter.submit_approval(a)] *)
Definition deliver (approvals_by_step : gmap Z (list Approval.t)) (k : Z)
    (adapter : A) : list Event * A :=
  let due := default [] (approvals_by_step !! k) in
  (EvApproval <$> due, foldl (fun ad a => adapter_submit_approval a ad) adapter due).

(** The part of the loop body after the deliveries, for one call. *)
Definition governed_step (env : Env) (call : ToolCall.t)
    (systems : MockSystems) (adapter : A)
  : res (NuvallaReceipt * option ExecResult) * MockSystems * A :=
  let '(r, adapter) := adapter_intercept call adapter in
  match r with
  | inl e => (inl e, systems, adapter)
  | inr receipt =>
      if bool_decide (decision receipt = COMMIT) && String.eqb (status receipt) "success"
      then
        let '(commit_res, systems) := execute env call systems in
        if force_post_commit_failure call then
          let '(undo_res, systems) := undo call (external_id commit_res) systems in
          (inr (receipt, Some commit_res), systems, adapter)
        else
          (inr (receipt, Some commit_res), systems, adapter)
      else
        (inr (receipt, None), systems, adapter)
  end.

(** [for idx, call in enumerate(trace.tool_calls, start=1): ...], entered
    at index [idx]; [env i] is what the [i]-th remaining iteration reads
    from the outside world. *)
Fixpoint replay_calls (env : nat -> Env)
    (approvals_by_step : gmap Z (list Approval.t)) (idx : Z)
    (calls : list ToolCall.t) (systems : MockSystems) (adapter : A)
  : RunResult :=
  match calls with
  | [] => {| events := []; raised := None;
             systems_after := systems; adapter_after := adapter |}
  | call :: rest =>
      let '(delivered, adapter) := deliver approvals_by_step (idx - 1) adapter in
      match governed_step (env 0%nat) call systems adapter with
      | (inl e, systems, adapter) =>
          {| events := delivered ++ [EvCall call]; raised := Some e;
             systems_after := systems; adapter_after := adapter |}
      | (inr (receipt, commit_res), systems, adapter) =>
          let r := replay_calls (fun i => env (S i)) approvals_by_step
                     (idx + 1) rest systems adapter in
          {| events := delivered ++ [EvCall call; EvResult receipt commit_res]
                         ++ events r;
             raised := raised r;
             systems_after := systems_after r;
             adapter_after := adapter_after r |}
      end
  end.

(** The run once the schedule is built: the loop, then the approvals
    held for the index [len(trace.tool_calls)]. *)
Definition replay_scheduled (env : nat -> Env)
    (schedule : list (Z * Approval.t)) (calls : list ToolCall.t)
    (systems : MockSystems) (adapter : A) : RunResult :=
  let approvals_by_step := index_by_step schedule in
  let r := replay_calls env approvals_by_step 1 calls systems adapter in
  match raised r with
  | Some _ => r
  | None =>
      let '(delivered, adapter) :=
        deliver approvals_by_step (Z.of_nat (length calls)) (adapter_after r) in
      {| events := events r ++ delivered; raised := None;
         systems_after := systems_after r; adapter_after := adapter |}
  end.

(** The "AFTER" half of the body of [run_fintech_replay] for one trace,
    on a fresh [MockSystems()]. *)
Definition replay_trace (env : nat -> Env) (trace : ScenarioTrace)
    (adapter : A) : RunResult :=
  match build_schedule (approvals_timeline trace) with
  | inl e => {| events := []; raised := Some e;
                systems_after := MockSystems_init; adapter_after := adapter |}
  | inr schedule =>
      replay_scheduled env schedule (tool_calls trace) MockSystems_init adapter
  end.

End Replay.

Arguments RunResult A : clear implicits.

(** What the body of [run_fintech_replay] reads from the outside world
    for one trace: the readings of the baseline loop and those of the
    governed loop. *)
Record TraceEnv := mkTraceEnv {
  direct_env : nat -> Env;
  after_env : nat -> Env
}.

(** The baseline: [for call in trace.tool_calls: systems_direct.execute(call)]. *)
Fixpoint baseline_calls (env : nat -> Env) (calls : list ToolCall.t)
    (systems_direct : MockSystems) : list ExecResult * MockSystems :=
  match calls with
  | [] => ([], systems_direct)
  | call :: rest =>
      let '(res, systems_direct) := execute (env 0%nat) call systems_direct in
      let '(results, systems_direct) :=
        baseline_calls (fun i => env (S i)) rest systems_direct in
      (res :: results, systems_direct)
  end.

(** One trace of a run: the results the baseline printed, if it was asked
    for, and the governed run. *)
Record TraceRun (A : Type) := mkTraceRun {
  baseline : option (list ExecResult);
  governed : RunResult A
}.

Arguments baseline {A} _.
Arguments governed {A} _.

(** [run_fintech_replay]: the traces one after the other, the baseline on
    a [MockSystems] of its own, the governed run on another, the adapter
    shared by all traces; an exception ends the whole run. *)
Fixpoint run_fintech_replay {A : Type} `{!Adapter A} (env : nat -> TraceEnv)
    (traces : list ScenarioTrace) (adapter : A) (show_direct_baseline : bool)
  : list (TraceRun A) :=
  match traces with
  | [] => []
  | trace :: rest =>
      let shown :=
        if show_direct_baseline
        then Some (baseline_calls (direct_env (env 0%nat)) (tool_calls trace)
                     MockSystems_init).1
        else None in
      let r := replay_trace (after_env (env 0%nat)) trace adapter in
      {| baseline := shown; governed := r |}
      :: match raised r with
         | Some _ => []
         | None => run_fintech_replay (fun i => env (S i)) rest (adapter_after r)
                     show_direct_baseline
         end
  end.

(** *** What the loop prints for a step *)

(** The line [print_nuvalla_result] prints, named by the branch that
    prints it and carrying the values the line interpolates. *)
Inductive Banner :=
| PrintBlocked (message : string)
| PrintPending (message : string)
| PrintCompensated (message : string)
| PrintCommitted (message : string) (ext : option string)
| PrintFailed (message : string).

(** [print_nuvalla_result]: the line chosen by the status and the
    decision, then the receipt under [Audit receipt] when it is not empty. *)
Definition print_nuvalla_result (receipt : NuvallaReceipt)
    (commit_exec : option ExecResult) : Banner * option (gmap string pyval) :=
  (if String.eqb (status receipt) "blocked" then PrintBlocked (message receipt)
   else if String.eqb (status receipt) "pending_approval" then PrintPending (message receipt)
   else if bool_decide (decision receipt = UNDO) && String.eqb (status receipt) "success"
   then PrintCompensated (message receipt)
   else if bool_decide (decision receipt = COMMIT) && String.eqb (status receipt) "success"
   then PrintCommitted (message receipt) (external_id <$> commit_exec)
   else PrintFailed (message receipt),
   if bool_decide (size (FO.receipt receipt) = 0%nat) then None
   else Some (FO.receipt receipt)).

End FO.

(** ** Auxiliary definitions used in the statements *)

(** The record a first execution of [call] writes. *)
Definition fresh_record (env : Env) (call : ToolCall.t) : SysRecord :=
  {| rec_operation := ToolCall.operation call;
     rec_params := ToolCall.params call;
     rec_created_at_ms := time_ms env;
     deleted := false |}.

(** A test double for the adapter of FINTECH_ONLY: [intercept] answers
    from a prepared list of receipts and raises like the shipped class once
    the list is used up; [submit_approval] appends to a list of the
    approvals it was given. *)
Module ScriptedAdapter.
Record t := mk {
  script : list FO.NuvallaReceipt;
  submitted : list Approval.t
}.

Definition submit_approval (approval : Approval.t) (self : t) : t :=
  {| script := script self; submitted := submitted self ++ [approval] |}.

Definition intercept (call : ToolCall.t) (self : t) : res FO.NuvallaReceipt * t :=
  match script self with
  | [] => (inl NotImplementedError, self)
  | r :: rest => (inr r, {| script := rest; submitted := submitted self |})
  end.
End ScriptedAdapter.

#[global] Instance ScriptedAdapter_Adapter : FO.Adapter ScriptedAdapter.t := {|
  FO.adapter_submit_approval := ScriptedAdapter.submit_approval;
  FO.adapter_intercept := ScriptedAdapter.intercept
|}.

(** *** Calls and approvals of [build_traces], and a sample environment *)

Definition sample_created_at_ms : Z := 1700000000000.


Definition fin_t1_pay : ToolCall.t :=
  ToolCall.mk "fin_t1_pay" "ap_agent" "stripe" "payment.execute"
    (<["amount_usd" := PInt 18750]> (<["to_vendor" := PStr "ShadyCo LLC"]>
      (<["invoice_id" := PStr "INV-FAKE-77"]> ∅)))
    "txn_fin_1001" sample_created_at_ms.

Definition fin_t1_pay_approval : Approval.t :=
  Approval.mk "fin_t1_pay" "cfo@acmefinco.com" "CFO" "dashboard" sample_created_at_ms.

Definition hlth_t1_med_approval : Approval.t :=
  Approval.mk "hlth_t1_med" "attending_md@hospital.org" "AttendingMD" "ehr_signoff"
    sample_created_at_ms.

Definition ins_t1_pay : ToolCall.t :=
  ToolCall.mk "ins_t1_pay" "claims_agent" "stripe" "payment.execute"
    (<["amount_usd" := PInt 2400]> (<["to_vendor" := PStr "MemberReimbursement"]>
      (<["claim_id" := PStr "CLM-55210"]>
      (<["force_post_commit_failure" := PBool true]> ∅))))
    "txn_ins_4004" sample_created_at_ms.

Definition fin_t5_pay : ToolCall.t :=
  ToolCall.mk "fin_t5_pay" "finance_agent" "stripe" "payment.execute"
    (<["amount_usd" := PInt 850]> (<["to_vendor" := PStr "CloudHostingCo"]>
      (<["invoice_id" := PStr "INV-9231"]> ∅)))
    "txn_fin_5005" sample_created_at_ms.

(** The [i]-th reading of the outside world: distinct identifiers for the
    first ten readings, a clock that advances by one millisecond. *)
Definition sample_env (i : nat) : Env :=
  {| uuid4_hex := pretty (i mod 10)%nat +:+ "f3a9c2e47b1d4c0e9a6b5d8e2f1a7c3";
     time_ms := sample_created_at_ms + Z.of_nat i |}.

(** A receipt as a wired adapter would return it. *)
Definition scripted_receipt (d : FO.Decision) (status : string) : FO.NuvallaReceipt :=
  {| FO.decision := d; FO.status := status; FO.message := "scripted";
     FO.receipt := <["policy" := VStr "scripted"]> ∅ |}.

Definition scripted (rs : list FO.NuvallaReceipt) : ScriptedAdapter.t :=
  {| ScriptedAdapter.script := rs; ScriptedAdapter.submitted := [] |}.

(** A payment whose amount arrives as text with a thousands separator. *)
Definition malformed_amount_pay : ToolCall.t :=
  ToolCall.mk "fin_t9_pay" "ap_agent" "stripe" "payment.execute"
    (<["amount_usd" := PStr "18,750"]> (<["to_vendor" := PStr "ShadyCo LLC"]> ∅))
    "txn_fin_9009" sample_created_at_ms.

(** A vendor creation that fails KYC and carries the compensation flag. *)
Definition flagged_vendor : ToolCall.t :=
  ToolCall.mk "fin_t9_vendor" "ap_agent" "netsuite" "vendor.create"
    (<["vendor_name" := PStr "ShadyCo LLC"]> (<["kyc_passed" := PBool false]>
      (<["force_post_commit_failure" := PBool true]> ∅)))
    "txn_fin_9009" sample_created_at_ms.

Definition sample_trace (calls : list ToolCall.t) (approvals : list Approval.t)
  : AMR.ScenarioTrace :=
  {| AMR.name := "sample"; AMR.domain := "fintech"; AMR.story := "sample";
     AMR.tool_calls := calls; AMR.approvals := approvals |}.

Definition sample_fintech_trace (calls : list ToolCall.t) (timeline : list Approval.t)
  : FO.ScenarioTrace :=
  {| FO.name := "sample"; FO.story := "sample";
     FO.tool_calls := calls; FO.approvals_timeline := timeline |}.

(** A retry of [fin_t5_pay] that names another system and carries the
    compensation flag. *)
Definition fin_t5_pay_rerouted : ToolCall.t :=
  ToolCall.mk "fin_t5_pay" "finance_agent" "paypal" "payment.execute"
    (<["amount_usd" := PInt 850]> (<["force_post_commit_failure" := PBool true]> ∅))
    "txn_fin_5005" sample_created_at_ms.

(** *** Reading a run of FINTECH_ONLY *)

(** The approvals a run delivered, and the calls it reached, in order. *)
Definition approvals_in (evs : list FO.Event) : list Approval.t :=
  omap (λ ev, match ev with FO.EvApproval a => Some a | _ => None end) evs.


(** The delivery order the schedule stands for: the approvals scheduled at
    index [k], in the order they were put on the schedule, and those
    scheduled at the indices [0 .. n-1], index by index. *)
Definition scheduled_at (schedule : list (Z * Approval.t)) (k : Z) : list Approval.t :=
  (filter (λ p, p.1 = k) schedule).*2.


(** A schedule that spreads approvals over the steps of a two-call trace. *)
Definition second_approval : Approval.t :=
  Approval.mk "fin_t1_pay" "risk@acmefinco.com" "RiskOfficer" "dashboard"
    sample_created_at_ms.

Definition sample_schedule : list (Z * Approval.t) :=
  [(0%Z, fin_t1_pay_approval); (1%Z, hlth_t1_med_approval);
   (0%Z, second_approval); (2%Z, fin_t1_pay_approval)].

(** *** Sequences of calls on a [MockSystems] object *)

(** One method call on the mock world, and a sequence of them. *)
Inductive LedgerOp :=
| OpExecute (env : Env) (call : ToolCall.t)
| OpUndo (call : ToolCall.t) (external_id : string).

Definition apply_op (self : MockSystems) (op : LedgerOp) : MockSystems :=
  match op with
  | OpExecute env call => (AMR.execute_direct env call self).2
  | OpUndo call external_id => (AMR.undo call external_id self).2
  end.

Definition apply_ops (ops : list LedgerOp) (self : MockSystems) : MockSystems :=
  foldl apply_op self ops.

(** A refund on stripe, an operation the policy does not name, and a
    mail to an address of the company domain. *)
Definition stripe_refund : ToolCall.t :=
  ToolCall.mk "fin_t9_refund" "finance_agent" "stripe" "refund.create"
    (<["amount_usd" := PInt 99000]> ∅) "txn_fin_9009" sample_created_at_ms.


(** * Properties *)

(** ** The record store *)

Section Store.
Implicit Types (st : gmap string (gmap string SysRecord)) (rec : SysRecord).

Lemma state_store_lookup st idx system external_id rec s e :
  get_record {| state := state_store st system external_id rec; idempotency := idx |} s e
  = if decide (s = system ∧ e = external_id) then Some rec
    else get_record {| state := st; idempotency := idx |} s e.
Proof.
  unfold get_record, state_store, dict_get; simpl.
  destruct (decide (s = system)) as [->|Hs].
  - rewrite lookup_insert_eq; simpl.
    destruct (decide (e = external_id)) as [->|He].
    + rewrite lookup_insert_eq. by rewrite decide_True.
    + rewrite lookup_insert_ne by done. rewrite decide_False; [done | by intros [??]].
  - rewrite lookup_insert_ne by done. rewrite decide_False; [done | by intros [??]].
Qed.

Lemma state_store_twice st system external_id rec rec' :
  state_store (state_store st system external_id rec) system external_id rec'
  = state_store st system external_id rec'.
Proof.
  unfold state_store, dict_get.
  rewrite lookup_insert_eq; simpl.
  by rewrite !insert_insert_eq.
Qed.

Lemma mark_deleted_idemp rec : mark_deleted (mark_deleted rec) = mark_deleted rec.
Proof. reflexivity. Qed.

Lemma mark_deleted_deleted rec : deleted (mark_deleted rec) = true.
Proof. reflexivity. Qed.
End Store.

(** The two files carry the same [MockSystems]: the methods agree. *)
Lemma FO_execute_eq env call self : FO.execute env call self = AMR.execute_direct env call self.
Proof. reflexivity. Qed.

Lemma FO_undo_eq call ext self : FO.undo call ext self = AMR.undo call ext self.
Proof. reflexivity. Qed.

Lemma FO_baseline_eq env calls self :
  FO.baseline_calls env calls self = AMR.run_trace_direct_calls env calls self.
Proof. reflexivity. Qed.

(** ** Idempotent execution *)

Section Idempotency.
Import AMR.

Lemma execute_direct_replay env call self ext_id :
  idempotency self !! ToolCall.action_id call = Some ext_id →
  execute_direct env call self
  = ({| ok := true; external_id := ext_id; idempotent_replay := true |}, self).
Proof. intros Hin. unfold execute_direct. by rewrite Hin. Qed.

Lemma execute_direct_first env call self :
  idempotency self !! ToolCall.action_id call = None →
  execute_direct env call self
  = ({| ok := true; external_id := _new_id env (ToolCall.system call);
        idempotent_replay := false |},
     {| state := state_store (state self) (ToolCall.system call)
                   (_new_id env (ToolCall.system call)) (fresh_record env call);
        idempotency := <[ToolCall.action_id call := _new_id env (ToolCall.system call)]>
                         (idempotency self) |}).
Proof. intros Hnew. unfold execute_direct. by rewrite Hnew. Qed.

(** Once the index holds [a], every further call sharing [a] is a replay. *)
Lemma run_direct_replays env calls self a ext_id :
  Forall (λ c, ToolCall.action_id c = a) calls →
  idempotency self !! a = Some ext_id →
  run_trace_direct_calls env calls self
  = (replicate (length calls)
       {| ok := true; external_id := ext_id; idempotent_replay := true |}, self).
Proof.
  intros Hall. revert env.
  induction Hall as [|c calls Hc _ IH]; intros env Hin; simpl; [done|].
  rewrite (execute_direct_replay _ _ _ ext_id) by (by rewrite Hc).
  by rewrite IH.
Qed.

(** C1. Executing [N >= 1] calls that share the action id [a], from a
    world that has not seen [a]: every call returns the external id drawn
    by the first one; the first reports [idempotent_replay = False] and
    all later ones [True]; the world after the [N] calls is the world
    after the first, which differs from the initial one by one record,
    stored under the first call's system and the drawn id, and by the
    index entry for [a].  The same calls through [execute] of FINTECH_ONLY
    give the same results and the same world. *)
Theorem execute_idempotent_per_action
    (env : nat → Env) (a : string) (first : ToolCall.t)
    (retries : list ToolCall.t) (self : MockSystems) :
  ToolCall.action_id first = a →
  Forall (λ c, ToolCall.action_id c = a) retries →
  idempotency self !! a = None →
  let ext_id := _new_id (env 0%nat) (ToolCall.system first) in
  let results := (run_trace_direct_calls env (first :: retries) self).1 in
  let self' := (run_trace_direct_calls env (first :: retries) self).2 in
  results = {| ok := true; external_id := ext_id; idempotent_replay := false |}
            :: replicate (length retries)
                 {| ok := true; external_id := ext_id; idempotent_replay := true |}
  ∧ Forall (λ r, external_id r = ext_id) results
  ∧ self' = (execute_direct (env 0%nat) first self).2
  ∧ idempotency self' = <[a := ext_id]> (idempotency self)
  ∧ (∀ s e, get_record self' s e
            = if decide (s = ToolCall.system first ∧ e = ext_id)
              then Some (fresh_record (env 0%nat) first)
              else get_record self s e)
  ∧ FO.baseline_calls env (first :: retries) self = (results, self').
Proof.
  intros Ha Hall Hnew ext_id results self'.
  subst results self'.
  change (FO.baseline_calls env (first :: retries) self)
    with (run_trace_direct_calls env (first :: retries) self).
  simpl.
  rewrite execute_direct_first by (by rewrite Ha). simpl.
  rewrite (run_direct_replays _ retries _ a ext_id); cycle 1.
  { done. }
  { simpl. rewrite Ha. apply lookup_insert_eq. }
  simpl. split_and!.
  - done.
  - constructor; [done|]. apply Forall_replicate. done.
  - done.
  - by rewrite Ha.
  - intros s e. apply state_store_lookup.
  - done.
Qed.
End Idempotency.

(** ** Compensating undo at the record store *)

Section Undo.
Import AMR.

Lemma undo_absent (call : ToolCall.t) (ext : string) (self : MockSystems) :
  get_record self (ToolCall.system call) ext = None →
  undo call ext self = (UndoError "record_not_found", self).
Proof. intros Hrec. unfold undo. by rewrite Hrec. Qed.

Lemma undo_found (call : ToolCall.t) (ext : string) (self : MockSystems) rec :
  get_record self (ToolCall.system call) ext = Some rec →
  undo call ext self
  = (UndoOk ("undo:" +:+ ext),
     {| state := state_store (state self) (ToolCall.system call) ext (mark_deleted rec);
        idempotency := idempotency self |}).
Proof. intros Hrec. unfold undo. by rewrite Hrec. Qed.

(** C5. [undo] on a system and external id that hold no record returns
    the error result [record_not_found] and leaves the world as it was.
    On a stored record it returns the identifier ["undo:" + external_id],
    sets [deleted] on that record and touches nothing else; a further
    [undo] of the same entry returns the same identifier and leaves the
    world unchanged, so any number of repetitions succeed alike.
    [undo] of FINTECH_ONLY is the same function. *)
Theorem undo_not_found_or_deterministic
    (call : ToolCall.t) (ext : string) (self : MockSystems) :
  match get_record self (ToolCall.system call) ext with
  | None => undo call ext self = (UndoError "record_not_found", self)
  | Some rec =>
      let self' := (undo call ext self).2 in
      (undo call ext self).1 = UndoOk ("undo:" +:+ ext)
      ∧ (∀ s e, get_record self' s e
                = if decide (s = ToolCall.system call ∧ e = ext)
                  then Some (mark_deleted rec) else get_record self s e)
      ∧ deleted (mark_deleted rec) = true
      ∧ idempotency self' = idempotency self
      ∧ undo call ext self' = (UndoOk ("undo:" +:+ ext), self')
  end
  ∧ FO.undo call ext self = undo call ext self.
Proof.
  split; [|done].
  destruct (get_record self (ToolCall.system call) ext) as [rec|] eqn:Hrec.
  - assert (Hun : undo call ext self
                  = (UndoOk ("undo:" +:+ ext),
                     {| state := state_store (state self) (ToolCall.system call)
                                   ext (mark_deleted rec);
                        idempotency := idempotency self |})).
    { unfold undo. by rewrite Hrec. }
    rewrite Hun; simpl. split_and!; try done.
    + intros s e. rewrite state_store_lookup. by destruct self.
    + unfold undo. rewrite state_store_lookup, decide_True by done. simpl.
      by rewrite state_store_twice.
  - unfold undo. by rewrite Hrec.
Qed.
End Undo.

(** ** The approval store of [NuvallaHook] *)

Section Approvals.
Import AMR AMR.NuvallaHook.

Lemma approvals_for_approve (ap : Approval.t) (h : NuvallaHook.t) (a : string) :
  approvals_for (approve ap h) a
  = if decide (Approval.action_id ap = a)
    then approvals_for h a ++ [ap] else approvals_for h a.
Proof.
  unfold approvals_for, approve, dict_get; simpl.
  case_decide as Ha.
  - subst a. by rewrite lookup_insert_eq.
  - by rewrite lookup_insert_ne.
Qed.

Lemma approvals_for_feed (recorded : list Approval.t) (h : NuvallaHook.t) (a : string) :
  approvals_for (feed_approvals recorded h) a
  = approvals_for h a ++ filter (λ x, Approval.action_id x = a) recorded.
Proof.
  revert h. induction recorded as [|ap recorded IH]; intros h; simpl.
  - by rewrite app_nil_r.
  - unfold feed_approvals in *. simpl. rewrite IH, approvals_for_approve.
    rewrite filter_cons. case_decide; [|done]. by rewrite <- app_assoc.
Qed.

(** C7. The approvals held for an action id after any sequence of
    recordings are the ones held before followed by the recordings made
    under that id, in recording order and with repetitions kept; from the
    empty store they are exactly the recordings made under that id, and
    none when there were none; recording one approval twice adds two
    entries; what was read before is a prefix of what is read later. *)
Theorem approvals_append_only
    (h : NuvallaHook.t) (recorded : list Approval.t) (a : string)
    (ap : Approval.t) :
  approvals_for (feed_approvals recorded h) a
  = approvals_for h a ++ filter (λ x, Approval.action_id x = a) recorded
  ∧ approvals_for (feed_approvals recorded init) a
    = filter (λ x, Approval.action_id x = a) recorded
  ∧ approvals_for init a = []
  ∧ approvals_for (approve ap (approve ap h)) (Approval.action_id ap)
    = approvals_for h (Approval.action_id ap) ++ [ap; ap]
  ∧ approvals_for h a `prefix_of` approvals_for (feed_approvals recorded h) a.
Proof.
  split_and!.
  - apply approvals_for_feed.
  - by rewrite approvals_for_feed.
  - done.
  - rewrite !approvals_for_approve, !decide_True by done.
    by rewrite <- app_assoc.
  - rewrite approvals_for_feed. by apply prefix_app_r.
Qed.

(** C9. Evaluation by the shipped hook leaves the approval store as it
    was, so a second evaluation of the same call returns the same
    decision (or raises the same exception); two stores that hold the
    same approvals under the call's action id give the same result, in
    particular recording an approval under another action id changes
    nothing; and the result depends on the call only through its action
    id, system, operation and params. *)
Theorem evaluate_pure
    (call call' : ToolCall.t) (h h' : NuvallaHook.t) (other : Approval.t) :
  (hook_evaluate call h).2 = h
  ∧ (hook_evaluate call (hook_evaluate call h).2).1 = (hook_evaluate call h).1
  ∧ (approvals_for h (ToolCall.action_id call)
     = approvals_for h' (ToolCall.action_id call) →
     evaluate call h = evaluate call h')
  ∧ (Approval.action_id other ≠ ToolCall.action_id call →
     evaluate call (approve other h) = evaluate call h)
  ∧ (ToolCall.action_id call = ToolCall.action_id call' →
     ToolCall.system call = ToolCall.system call' →
     ToolCall.operation call = ToolCall.operation call' →
     ToolCall.params call = ToolCall.params call' →
     evaluate call h = evaluate call' h).
Proof.
  assert (Hdep : ∀ h1 h2,
             approvals_for h1 (ToolCall.action_id call)
             = approvals_for h2 (ToolCall.action_id call) →
             evaluate call h1 = evaluate call h2).
  { intros h1 h2 Heq. unfold evaluate. by rewrite Heq. }
  split_and!.
  - done.
  - done.
  - apply Hdep.
  - intros Hne. apply Hdep. rewrite approvals_for_approve. by rewrite decide_False.
  - intros Ha Hs Ho Hp. unfold evaluate. by rewrite Ha, Hs, Ho, Hp.
Qed.
End Approvals.

(** ** The commit test of the two replay loops *)

Section CommitTest.
Context {H : Type} `{!AMR.Hook H} {A : Type} `{!FO.Adapter A}.
Implicit Types (call : ToolCall.t) (systems : MockSystems) (hook : H) (adapter : A).

Lemma nuvalla_step_raise env call systems hook e hook' :
  AMR.hook_evaluate call hook = (inl e, hook') →
  AMR.nuvalla_step env call systems hook = (inl e, systems, hook').
Proof. intros Hev. unfold AMR.nuvalla_step. by rewrite Hev. Qed.

Lemma nuvalla_step_no_commit env call systems hook ev hook' :
  AMR.hook_evaluate call hook = (inr ev, hook') →
  ¬ (AMR.decision ev = AMR.COMMIT ∧ AMR.commit_allowed ev = true) →
  AMR.nuvalla_step env call systems hook
  = (inr {| AMR.evalr := ev; AMR.exec_result := None |}, systems, hook').
Proof.
  intros Hev Hno. unfold AMR.nuvalla_step. rewrite Hev.
  destruct (bool_decide (AMR.decision ev = AMR.COMMIT) && AMR.commit_allowed ev) eqn:Hb; [|done].
  apply andb_true_iff in Hb as [Hd%bool_decide_eq_true Hc]. by destruct Hno.
Qed.

Lemma nuvalla_step_commit env call systems hook ev hook' :
  AMR.hook_evaluate call hook = (inr ev, hook') →
  AMR.decision ev = AMR.COMMIT → AMR.commit_allowed ev = true →
  AMR.nuvalla_step env call systems hook
  = let executed := AMR.execute_direct env call systems in
    if force_post_commit_failure call then
      let undone := AMR.undo call (external_id executed.1) executed.2 in
      (inr {| AMR.evalr :=
                {| AMR.decision := AMR.UNDO;
                   AMR.message := "Post-commit failure detected; compensating undo executed";
                   AMR.commit_allowed := false;
                   AMR.required_approvals := 0;
                   AMR.receipt := AMR.undo_receipt (AMR.receipt ev) undone.1 |};
              AMR.exec_result := Some executed.1 |}, undone.2, hook')
    else (inr {| AMR.evalr := ev; AMR.exec_result := Some executed.1 |},
          executed.2, hook').
Proof.
  intros Hev Hd Hc. unfold AMR.nuvalla_step. rewrite Hev, Hd, Hc.
  rewrite bool_decide_eq_true_2 by done. simpl.
  destruct (AMR.execute_direct env call systems) as [er s1]. simpl.
  destruct (force_post_commit_failure call); [|done].
  by destruct (AMR.undo call (external_id er) s1).
Qed.

Lemma governed_step_raise env call systems adapter e adapter' :
  FO.adapter_intercept call adapter = (inl e, adapter') →
  FO.governed_step env call systems adapter = (inl e, systems, adapter').
Proof. intros Hic. unfold FO.governed_step. by rewrite Hic. Qed.

Lemma governed_step_no_commit env call systems adapter rc adapter' :
  FO.adapter_intercept call adapter = (inr rc, adapter') →
  ¬ (FO.decision rc = FO.COMMIT ∧ FO.status rc = "success") →
  FO.governed_step env call systems adapter = (inr (rc, None), systems, adapter').
Proof.
  intros Hic Hno. unfold FO.governed_step. rewrite Hic.
  destruct (bool_decide (FO.decision rc = FO.COMMIT) && String.eqb (FO.status rc) "success")
    eqn:Hb; [|done].
  apply andb_true_iff in Hb as [Hd%bool_decide_eq_true Hs%String.eqb_eq].
  by destruct Hno.
Qed.

Lemma governed_step_commit env call systems adapter rc adapter' :
  FO.adapter_intercept call adapter = (inr rc, adapter') →
  FO.decision rc = FO.COMMIT → FO.status rc = "success" →
  FO.governed_step env call systems adapter
  = let executed := FO.execute env call systems in
    if force_post_commit_failure call then
      (inr (rc, Some executed.1),
       (FO.undo call (external_id executed.1) executed.2).2, adapter')
    else (inr (rc, Some executed.1), executed.2, adapter').
Proof.
  intros Hic Hd Hs. unfold FO.governed_step. rewrite Hic, Hd, Hs.
  rewrite bool_decide_eq_true_2 by done. simpl.
  destruct (FO.execute env call systems) as [er s1]. simpl.
  destruct (force_post_commit_failure call); [|done].
  by destruct (FO.undo call (external_id er) s1).
Qed.
End CommitTest.

Section CommitTestClaims.
Import AMR.


End CommitTestClaims.

(** ** Exceptions of the policy step *)

Section PolicyErrors.
Import AMR.
Context {H : Type} `{!Hook H}.

Lemma run_calls_app (env : nat → Env) (pre post : list ToolCall.t)
    (systems : MockSystems) (hook : H) :
  run_calls env (pre ++ post) systems hook
  = let before := run_calls env pre systems hook in
    match raised before with
    | Some _ => before
    | None =>
        let r := run_calls (λ i, env (length pre + i)%nat) post
                   (systems_after before) (hook_after before) in
        {| printed := printed before ++ printed r; raised := raised r;
           systems_after := systems_after r; hook_after := hook_after r |}
    end.
Proof.
  revert env systems hook.
  induction pre as [|c pre IH]; intros env systems hook; simpl.
  - by destruct (run_calls _ post systems hook).
  - destruct (nuvalla_step (env 0%nat) c systems hook) as [[[e|out] s1] h1]; simpl; [done|].
    rewrite IH. simpl.
    by destruct (run_calls (λ i, env (S i)) pre s1 h1) as [p [e'|] sa ha].
Qed.

(** C3, as the code has it. When [evaluate] raises on a call, the loop
    does not catch it: the run ends with that very exception; the call
    is not executed and no later call is processed, so the world is the
    one the calls before it left. *)
Theorem policy_error_propagates_unexecuted
    (env : nat → Env) (earlier : list ToolCall.t) (call : ToolCall.t)
    (later : list ToolCall.t) (systems : MockSystems) (hook hook' : H)
    (e : pyexn) :
  raised (run_calls env earlier systems hook) = None →
  hook_evaluate call (hook_after (run_calls env earlier systems hook))
  = (inl e, hook') →
  run_calls env (earlier ++ call :: later) systems hook
  = {| printed := printed (run_calls env earlier systems hook);
       raised := Some e;
       systems_after := systems_after (run_calls env earlier systems hook);
       hook_after := hook' |}.
Proof.
  intros Hok Hev. rewrite run_calls_app. simpl. rewrite Hok. simpl.
  rewrite (nuvalla_step_raise _ _ _ _ e hook') by done.
  simpl. by rewrite app_nil_r.
Qed.
End PolicyErrors.

Section PolicyErrorExamples.
Import AMR.

Lemma policy_error_propagates_unexecuted_witness :
  raised (run_calls sample_env [fin_t5_pay] MockSystems_init NuvallaHook.init) = None
  ∧ raised (run_calls sample_env [fin_t5_pay; malformed_amount_pay; fin_t1_pay]
              MockSystems_init NuvallaHook.init) = Some ValueError
  ∧ systems_after (run_calls sample_env [fin_t5_pay; malformed_amount_pay; fin_t1_pay]
                     MockSystems_init NuvallaHook.init)
    = systems_after (run_calls sample_env [fin_t5_pay] MockSystems_init NuvallaHook.init).
Proof.
  assert (Hok : raised (run_calls sample_env [fin_t5_pay] MockSystems_init
                          NuvallaHook.init) = None) by reflexivity.
  assert (Hev : hook_evaluate malformed_amount_pay
                  (hook_after (run_calls sample_env [fin_t5_pay] MockSystems_init
                                 NuvallaHook.init))
                = (inl ValueError, NuvallaHook.init)) by reflexivity.
  pose proof (policy_error_propagates_unexecuted sample_env [fin_t5_pay]
                malformed_amount_pay [fin_t1_pay] MockSystems_init
                NuvallaHook.init NuvallaHook.init ValueError Hok Hev) as Hrun.
  simpl app in Hrun.
  split; [exact Hok|]. by rewrite Hrun.
Defined.

(** C3, as the spec words it, fails: the exception that reaches the
    caller is the one [int()] raised, not a [PolicyUnavailable]. *)
Lemma policy_error_is_not_policy_unavailable :
  let r := run_trace_with_nuvalla sample_env (sample_trace [malformed_amount_pay] [])
             MockSystems_init NuvallaHook.init in
  NuvallaHook.evaluate malformed_amount_pay NuvallaHook.init = inl ValueError
  ∧ raised r = Some ValueError
  ∧ ¬ (∃ e, raised r = Some e ∧ exn_name e = "PolicyUnavailable").
Proof.
  simpl. split; [reflexivity|]. split; [reflexivity|].
  intros (e & He & Hname).
  vm_compute in He. injection He as <-. discriminate Hname.
Qed.
End PolicyErrorExamples.

(** ** Compensation *)

Section Compensation.
Import AMR.

(** C4, as the code has it. A call that passes the commit test and
    carries a true [force_post_commit_failure] is executed and [undo] is
    called on the external id the execution returned.  The loop of
    Agent_Misbehavior_Replay then passes on a synthesized decision: UNDO,
    [commit_allowed = False], and the commit receipt merged with
    [post_commit_failure: True] and the undo result.  The loop of
    FINTECH_ONLY performs the same undo and passes on the adapter's
    receipt as it was.  The undo succeeds and sets [deleted] whenever the
    record is stored under the call's own system, as it is when the call
    is the first execution of its action id. *)
Theorem compensation_after_commit
    {H : Type} `{!Hook H} {A : Type} `{!FO.Adapter A}
    (env : Env) (call : ToolCall.t) (systems : MockSystems)
    (hook hook' : H) (ev : NuvallaEval)
    (adapter adapter' : A) (rc : FO.NuvallaReceipt) :
  force_post_commit_failure call = true →
  hook_evaluate call hook = (inr ev, hook') →
  decision ev = COMMIT → commit_allowed ev = true →
  FO.adapter_intercept call adapter = (inr rc, adapter') →
  FO.decision rc = FO.COMMIT → FO.status rc = "success" →
  let executed := execute_direct env call systems in
  let undone := undo call (external_id executed.1) executed.2 in
  nuvalla_step env call systems hook
  = (inr {| evalr :=
              {| decision := UNDO;
                 message := "Post-commit failure detected; compensating undo executed";
                 commit_allowed := false;
                 required_approvals := 0;
                 receipt := <["undo" := VDict (undo_dict undone.1)]>
                              (<["post_commit_failure" := VBool true]> (receipt ev)) |};
            exec_result := Some executed.1 |},
     undone.2, hook')
  ∧ FO.governed_step env call systems adapter
    = (inr (rc, Some executed.1), undone.2, adapter')
  ∧ (∀ rec, get_record executed.2 (ToolCall.system call) (external_id executed.1)
            = Some rec →
            undone.1 = UndoOk ("undo:" +:+ external_id executed.1)
            ∧ get_record undone.2 (ToolCall.system call) (external_id executed.1)
              = Some (mark_deleted rec))
  ∧ (idempotency systems !! ToolCall.action_id call = None →
     undone.1 = UndoOk ("undo:" +:+ external_id executed.1)
     ∧ get_record undone.2 (ToolCall.system call) (external_id executed.1)
       = Some (mark_deleted (fresh_record env call))).
Proof.
  intros Hflag Hev Hd Hc Hic Hd' Hs executed undone.
  assert (Hfound : ∀ rec,
             get_record executed.2 (ToolCall.system call) (external_id executed.1)
             = Some rec →
             undone.1 = UndoOk ("undo:" +:+ external_id executed.1)
             ∧ get_record undone.2 (ToolCall.system call) (external_id executed.1)
               = Some (mark_deleted rec)).
  { intros rec Hrec. subst undone. rewrite (undo_found _ _ _ rec Hrec). simpl.
    split; [done|]. rewrite state_store_lookup. by rewrite decide_True. }
  split_and!.
  - rewrite (nuvalla_step_commit env call systems hook ev hook') by done.
    simpl. by rewrite Hflag.
  - rewrite (governed_step_commit env call systems adapter rc adapter') by done.
    simpl. by rewrite Hflag.
  - exact Hfound.
  - intros Hnew. apply Hfound. subst executed.
    rewrite execute_direct_first by done. simpl.
    rewrite state_store_lookup. by rewrite decide_True.
Qed.

Lemma compensation_after_commit_witness :
  force_post_commit_failure ins_t1_pay = true
  ∧ idempotency MockSystems_init !! ToolCall.action_id ins_t1_pay = None
  ∧ (∃ out systems',
        nuvalla_step (sample_env 0) ins_t1_pay MockSystems_init NuvallaHook.init
        = (inr out, systems', NuvallaHook.init)
        ∧ decision (evalr out) = UNDO
        ∧ commit_allowed (evalr out) = false
        ∧ receipt (evalr out) !! "post_commit_failure" = Some (VBool true)
        ∧ deleted <$> get_record systems' "stripe" "stripe:0f3a9c2e47" = Some true)
  ∧ (∃ systems',
        FO.governed_step (sample_env 0) ins_t1_pay MockSystems_init
          (scripted [scripted_receipt FO.COMMIT "success"])
        = (inr (scripted_receipt FO.COMMIT "success",
                Some {| ok := true; external_id := "stripe:0f3a9c2e47";
                        idempotent_replay := false |}), systems', scripted [])
        ∧ deleted <$> get_record systems' "stripe" "stripe:0f3a9c2e47" = Some true).
Proof.
  assert (Hflag : force_post_commit_failure ins_t1_pay = true) by reflexivity.
  assert (Hnew : idempotency MockSystems_init !! ToolCall.action_id ins_t1_pay = None)
    by reflexivity.
  assert (Hev : hook_evaluate ins_t1_pay NuvallaHook.init
                = (inr {| decision := COMMIT;
                          message := "Payment $2400 allowed (policy ok)";
                          commit_allowed := true; required_approvals := 0;
                          receipt := <["policy" := VStr "payment_threshold"]>
                                     (<["amount_usd" := VInt 2400]>
                                     (<["approvals" := VList []]> ∅)) |},
                   NuvallaHook.init)) by reflexivity.
  assert (Hic : FO.adapter_intercept ins_t1_pay
                  (scripted [scripted_receipt FO.COMMIT "success"])
                = (inr (scripted_receipt FO.COMMIT "success"), scripted []))
    by reflexivity.
  destruct (compensation_after_commit (sample_env 0) ins_t1_pay MockSystems_init
              _ _ _ _ _ _ Hflag Hev eq_refl eq_refl Hic eq_refl eq_refl)
    as (Hstep & Hgov & _ & Hdel).
  destruct (Hdel Hnew) as [_ Hrec].
  split; [exact Hflag|]. split; [exact Hnew|]. split.
  - eexists _, _. split; [exact Hstep|]. simpl.
    split; [reflexivity|]. split; [reflexivity|]. split; [reflexivity|].
    exact (f_equal (fmap deleted) Hrec).
  - eexists. split; [exact Hgov|]. exact (f_equal (fmap deleted) Hrec).
Defined.

(** C4, as the spec words it, fails in FINTECH_ONLY: the committed and
    flagged call is undone, yet what the loop passes on is the COMMIT
    receipt, and no UNDO decision appears in the run. *)
Lemma fintech_replay_keeps_commit_receipt :
  let r := FO.replay_trace sample_env (sample_fintech_trace [ins_t1_pay] [])
             (scripted [scripted_receipt FO.COMMIT "success"]) in
  force_post_commit_failure ins_t1_pay = true
  ∧ FO.raised r = None
  ∧ FO.events r
    = [FO.EvCall ins_t1_pay;
       FO.EvResult (scripted_receipt FO.COMMIT "success")
         (Some {| ok := true; external_id := "stripe:0f3a9c2e47";
                  idempotent_replay := false |})]
  ∧ deleted <$> get_record (FO.systems_after r) "stripe" "stripe:0f3a9c2e47" = Some true
  ∧ ¬ (∃ rc commit_exec,
          FO.EvResult rc commit_exec ∈ FO.events r ∧ FO.decision rc = FO.UNDO).
Proof.
  simpl.
  assert (Hev : FO.events (FO.replay_trace sample_env
                  (sample_fintech_trace [ins_t1_pay] [])
                  (scripted [scripted_receipt FO.COMMIT "success"]))
                = [FO.EvCall ins_t1_pay;
                   FO.EvResult (scripted_receipt FO.COMMIT "success")
                     (Some {| ok := true; external_id := "stripe:0f3a9c2e47";
                              idempotent_replay := false |})]) by reflexivity.
  split; [reflexivity|]. split; [reflexivity|]. split; [exact Hev|].
  split; [reflexivity|].
  intros (rc & ce & Hin & Hundo). rewrite Hev in Hin.
  apply elem_of_cons in Hin as [Hin|Hin]; [discriminate Hin|].
  apply list_elem_of_singleton in Hin. injection Hin as -> _.
  discriminate Hundo.
Qed.

(** In Agent_Misbehavior_Replay the UNDO decision is synthesized even
    when the undo found nothing: a retry that names another system gets
    the stored external id, the lookup under the retry's system misses,
    and the record stays as it was. *)
Example undo_misses_record_of_other_system :
  let r := run_calls sample_env [fin_t5_pay; fin_t5_pay_rerouted]
             MockSystems_init NuvallaHook.init in
  (λ o, (decision (evalr o), receipt (evalr o) !! "undo")) <$> printed r
  = [(COMMIT, None);
     (UNDO, Some (VDict (undo_dict (UndoError "record_not_found"))))]
  ∧ deleted <$> get_record (systems_after r) "stripe" "stripe:0f3a9c2e47"
    = Some false.
Proof. split; reflexivity. Qed.
End Compensation.

(** ** A compensation trigger on a call that is not committed *)

Section Uncommitted.
Import AMR.

(** C6, as the code has it. The compensation trigger is read only
    inside the commit branch.  On a call whose decision does not pass the
    commit test, flagged or not, neither loop attempts an undo: the
    decision is passed on as returned, nothing is raised and the world is
    left as it was.  An [undo] called on a system and external id that
    hold no record returns the error result [record_not_found] and
    changes nothing. *)
Theorem compensation_skipped_without_commit
    {H : Type} `{!Hook H} {A : Type} `{!FO.Adapter A}
    (env : Env) (call : ToolCall.t) (systems : MockSystems)
    (hook hook' : H) (ev : NuvallaEval)
    (adapter adapter' : A) (rc : FO.NuvallaReceipt) (ext : string) :
  hook_evaluate call hook = (inr ev, hook') →
  ¬ (decision ev = COMMIT ∧ commit_allowed ev = true) →
  FO.adapter_intercept call adapter = (inr rc, adapter') →
  ¬ (FO.decision rc = FO.COMMIT ∧ FO.status rc = "success") →
  get_record systems (ToolCall.system call) ext = None →
  nuvalla_step env call systems hook
  = (inr {| evalr := ev; exec_result := None |}, systems, hook')
  ∧ FO.governed_step env call systems adapter = (inr (rc, None), systems, adapter')
  ∧ undo call ext systems = (UndoError "record_not_found", systems)
  ∧ FO.undo call ext systems = (UndoError "record_not_found", systems).
Proof.
  intros Hev Hno Hic Hno' Hrec. split_and!.
  - by apply nuvalla_step_no_commit.
  - by apply governed_step_no_commit.
  - by apply undo_absent.
  - rewrite FO_undo_eq. by apply undo_absent.
Qed.

Lemma compensation_skipped_without_commit_witness :
  force_post_commit_failure flagged_vendor = true
  ∧ get_record MockSystems_init (ToolCall.system flagged_vendor) "netsuite:0f3a9c2e47" = None
  ∧ (nuvalla_step (sample_env 0) flagged_vendor MockSystems_init NuvallaHook.init).1.2
    = MockSystems_init
  ∧ FO.governed_step (sample_env 0) flagged_vendor MockSystems_init
      (scripted [scripted_receipt FO.PENDING "pending_approval"])
    = (inr (scripted_receipt FO.PENDING "pending_approval", None),
       MockSystems_init, scripted [])
  ∧ undo flagged_vendor "netsuite:0f3a9c2e47" MockSystems_init
    = (UndoError "record_not_found", MockSystems_init).
Proof.
  assert (Hev : hook_evaluate flagged_vendor NuvallaHook.init
                = (inr {| decision := BLOCK;
                          message := "Vendor creation blocked: KYC not passed";
                          commit_allowed := false; required_approvals := 0;
                          receipt := <["policy" := VStr "vendor_kyc_required"]> ∅ |},
                   NuvallaHook.init)) by reflexivity.
  assert (Hic : FO.adapter_intercept flagged_vendor
                  (scripted [scripted_receipt FO.PENDING "pending_approval"])
                = (inr (scripted_receipt FO.PENDING "pending_approval"), scripted []))
    by reflexivity.
  assert (Hrec : get_record MockSystems_init (ToolCall.system flagged_vendor)
                   "netsuite:0f3a9c2e47" = None) by reflexivity.
  destruct (compensation_skipped_without_commit (sample_env 0) flagged_vendor
              MockSystems_init _ _ _ _ _ _ "netsuite:0f3a9c2e47" Hev
              ltac:(simpl; intros [Hd _]; discriminate Hd) Hic
              ltac:(simpl; intros [Hd _]; discriminate Hd) Hrec)
    as (Hstep & Hgov & Hundo & _).
  split; [reflexivity|]. split; [exact Hrec|]. split; [by rewrite Hstep|].
  split; [exact Hgov|]. exact Hundo.
Defined.

(** C6, as the spec words it, fails: a blocked call that carries the
    compensation trigger ends in no error of any kind.  The run
    completes and passes on the BLOCK decision, whose receipt records no
    undo. *)
Lemma blocked_trigger_raises_nothing :
  let r := run_trace_with_nuvalla sample_env (sample_trace [flagged_vendor] [])
             MockSystems_init NuvallaHook.init in
  force_post_commit_failure flagged_vendor = true
  ∧ (λ o, (decision (evalr o), exec_result o, receipt (evalr o) !! "undo")) <$> printed r
    = [(BLOCK, None, None)]
  ∧ systems_after r = MockSystems_init
  ∧ ¬ (∃ e, raised r = Some e).
Proof.
  simpl. split; [reflexivity|]. split; [reflexivity|]. split; [reflexivity|].
  intros [e He]. vm_compute in He. discriminate He.
Qed.
End Uncommitted.

(** ** Scheduled delivery of approvals in FINTECH_ONLY *)

Section Schedule.
Import FO.
Context {A : Type} `{!Adapter A}.
Implicit Types (m : gmap Z (list Approval.t)) (adapter : A).

Lemma deliver_after_zero (a : Approval.t) : deliver_after a = inr 0%Z.
Proof. reflexivity. Qed.

Lemma build_schedule_zero (timeline : list Approval.t) :
  build_schedule timeline = inr ((λ a, (0%Z, a)) <$> timeline).
Proof.
  induction timeline as [|a timeline IH]; simpl; [done|].
  rewrite IH. reflexivity.
Qed.

Lemma index_by_step_from m (schedule : list (Z * Approval.t)) (k : Z) :
  default [] (foldl (λ m '(step_idx, appr),
                       <[step_idx := default [] (m !! step_idx) ++ [appr]]> m)
                    m schedule !! k)
  = default [] (m !! k) ++ scheduled_at schedule k.
Proof.
  revert m. induction schedule as [|[j a] schedule IH]; intros m; simpl.
  - unfold scheduled_at. simpl. by rewrite app_nil_r.
  - rewrite IH. unfold scheduled_at. rewrite filter_cons. simpl.
    destruct (decide (j = k)) as [->|Hne].
    + rewrite lookup_insert_eq. simpl. by rewrite <- app_assoc.
    + by rewrite lookup_insert_ne.
Qed.

Lemma index_by_step_lookup (schedule : list (Z * Approval.t)) (k : Z) :
  default [] (index_by_step schedule !! k) = scheduled_at schedule k.
Proof. unfold index_by_step. by rewrite index_by_step_from. Qed.

Lemma approvals_in_app evs evs' :
  approvals_in (evs ++ evs') = approvals_in evs ++ approvals_in evs'.
Proof. apply omap_app. Qed.


Lemma approvals_in_deliveries (due : list Approval.t) :
  approvals_in (EvApproval <$> due) = due.
Proof.
  induction due as [|a due IH]; [done|].
  change (a :: approvals_in (EvApproval <$> due) = a :: due). by rewrite IH.
Qed.


Lemma scheduled_at_zero (tl : list Approval.t) (k : Z) :
  scheduled_at ((λ a, (0%Z, a)) <$> tl) k = if decide (k = 0%Z) then tl else [].
Proof.
  unfold scheduled_at.
  induction tl as [|x tl IH]; [by case_decide|].
  rewrite fmap_cons, filter_cons. cbn [fst].
  destruct (decide (0%Z = k)) as [<-|Hk].
  - rewrite fmap_cons. cbn [snd]. rewrite IH. by rewrite !decide_True.
  - rewrite IH. by rewrite !decide_False.
Qed.

(** The loop only looks the schedule up at the indices from [idx - 1] on. *)
Lemma replay_calls_ext env m m' idx calls systems adapter :
  (∀ j, (idx - 1 ≤ j)%Z → default [] (m !! j) = default [] (m' !! j)) →
  replay_calls env m idx calls systems adapter
  = replay_calls env m' idx calls systems adapter.
Proof.
  revert env idx systems adapter.
  induction calls as [|c calls IH]; intros env idx systems adapter Hext; simpl; [done|].
  unfold deliver. rewrite (Hext (idx - 1)%Z) by lia.
  destruct (governed_step _ c systems _) as [[[e|[rc cr]] s1] ad1]; [done|].
  rewrite (IH _ (idx + 1)%Z s1 ad1); [done|].
  intros j Hj. apply Hext. lia.
Qed.

Lemma replay_calls_nothing_due env m idx calls systems adapter :
  (∀ j, (idx - 1 ≤ j)%Z → default [] (m !! j) = []) →
  approvals_in (events (replay_calls env m idx calls systems adapter)) = [].
Proof.
  revert env idx systems adapter.
  induction calls as [|c calls IH]; intros env idx systems adapter Hno; simpl; [done|].
  unfold deliver. rewrite (Hno (idx - 1)%Z) by lia. simpl.
  destruct (governed_step _ c systems adapter) as [[[e|[rc cr]] s1] ad1]; simpl; [done|].
  apply IH. intros j Hj. apply Hno. lia.
Qed.

(** C10. No [Approval] has a [deliver_after_step] attribute, so the
    [hasattr] test fails for every approval, each is put on the schedule
    at index 0, and the governed run of a trace is: submit every approval
    of the timeline, in timeline order, then replay the calls with
    nothing left on the schedule.  No approval is delivered after the
    first call was printed. *)
Theorem approvals_all_delivered_up_front
    (env : nat → Env) (trace : ScenarioTrace) (adapter : A) (a : Approval.t) :
  Approval_hasattr a "deliver_after_step" = false
  ∧ deliver_after a = inr 0%Z
  ∧ build_schedule (approvals_timeline trace)
    = inr ((λ a, (0%Z, a)) <$> approvals_timeline trace)
  ∧ replay_trace env trace adapter
    = (let submitted :=
         foldl (λ ad a, adapter_submit_approval a ad) adapter (approvals_timeline trace) in
       let r := replay_calls env ∅ 1 (tool_calls trace) MockSystems_init submitted in
       {| events := (EvApproval <$> approvals_timeline trace) ++ events r;
          raised := raised r;
          systems_after := systems_after r;
          adapter_after := adapter_after r |})
  ∧ approvals_in (events (replay_calls env ∅ 1 (tool_calls trace) MockSystems_init
                            (foldl (λ ad a, adapter_submit_approval a ad) adapter
                               (approvals_timeline trace)))) = [].
Proof.
  split; [reflexivity|]. split; [reflexivity|].
  split; [apply build_schedule_zero|]. split.
  - unfold replay_trace. rewrite build_schedule_zero.
    set (tl := approvals_timeline trace).
    set (sched := (λ a, (0%Z, a)) <$> tl).
    assert (Hat0 : scheduled_at sched 0 = tl).
    { subst sched. by rewrite scheduled_at_zero, decide_True. }
    assert (Hat : ∀ k, k ≠ 0%Z → scheduled_at sched k = []).
    { intros k Hk. subst sched. by rewrite scheduled_at_zero, decide_False. }
    unfold replay_scheduled.
    destruct (tool_calls trace) as [|c calls]; simpl.
    + unfold deliver. rewrite index_by_step_lookup.
      change (Z.of_nat 0) with 0%Z. rewrite Hat0. by rewrite app_nil_r.
    + unfold deliver. rewrite index_by_step_lookup.
      change (1 - 1)%Z with 0%Z. rewrite Hat0. simpl.
      destruct (governed_step (env 0%nat) c MockSystems_init _)
        as [[[e|[rc cr]] s1] ad1]; simpl; [done|].
      rewrite (replay_calls_ext _ (index_by_step sched) ∅); cycle 1.
      { intros j Hj. rewrite index_by_step_lookup, Hat by lia. done. }
      destruct (replay_calls _ ∅ _ calls s1 ad1) as [evs [e|] s2 ad2]; simpl; [done|].
      rewrite index_by_step_lookup, Hat by lia. simpl.
      by rewrite app_nil_r.
  - apply replay_calls_nothing_due. intros j _. done.
Qed.
(** *** Where the deliveries stand in the run *)







End Schedule.

(** ** The statements at sample inputs *)

Section Samples.
Import AMR.

Lemma execute_idempotent_per_action_witness :
  ToolCall.action_id fin_t5_pay = "fin_t5_pay"
  ∧ Forall (λ c, ToolCall.action_id c = "fin_t5_pay") [fin_t5_pay; fin_t5_pay_rerouted]
  ∧ idempotency MockSystems_init !! "fin_t5_pay" = None
  ∧ (run_trace_direct_calls sample_env
       [fin_t5_pay; fin_t5_pay; fin_t5_pay_rerouted] MockSystems_init).1
    = [ {| ok := true; external_id := "stripe:0f3a9c2e47"; idempotent_replay := false |};
        {| ok := true; external_id := "stripe:0f3a9c2e47"; idempotent_replay := true |};
        {| ok := true; external_id := "stripe:0f3a9c2e47"; idempotent_replay := true |} ].
Proof.
  assert (Hall : Forall (λ c, ToolCall.action_id c = "fin_t5_pay")
                   [fin_t5_pay; fin_t5_pay_rerouted])
    by (repeat constructor).
  assert (Hnew : idempotency MockSystems_init !! "fin_t5_pay" = None) by reflexivity.
  split; [reflexivity|]. split; [exact Hall|]. split; [exact Hnew|].
  exact (proj1 (execute_idempotent_per_action sample_env "fin_t5_pay" fin_t5_pay
                  [fin_t5_pay; fin_t5_pay_rerouted] MockSystems_init
                  eq_refl Hall Hnew)).
Defined.

Lemma evaluate_pure_witness :
  Approval.action_id hlth_t1_med_approval ≠ ToolCall.action_id fin_t1_pay
  ∧ NuvallaHook.evaluate fin_t1_pay
      (NuvallaHook.approve hlth_t1_med_approval NuvallaHook.init)
    = NuvallaHook.evaluate fin_t1_pay NuvallaHook.init
  ∧ match NuvallaHook.evaluate fin_t1_pay NuvallaHook.init with
    | inr ev => decision ev = REQUIRE_APPROVAL
    | inl _ => False
    end.
Proof.
  assert (Hne : Approval.action_id hlth_t1_med_approval ≠ ToolCall.action_id fin_t1_pay)
    by discriminate.
  split; [exact Hne|]. split; [|reflexivity].
  exact (proj1 (proj2 (proj2 (proj2
           (evaluate_pure fin_t1_pay fin_t1_pay NuvallaHook.init NuvallaHook.init
              hlth_t1_med_approval)))) Hne).
Defined.

End Samples.

(** * Further properties of the code *)

(** ** The demo policy of [NuvallaHook.evaluate] *)

Section Policy.
Import AMR AMR.NuvallaHook.

(** Case analysis over the branches of [evaluate] in a hypothesis. *)
Ltac evaluate_cases Hev :=
  unfold evaluate in Hev;
  repeat match type of Hev with
         | context [bind ?c _] => destruct c eqn:?; simpl in Hev
         | context [if ?b then _ else _] => destruct b eqn:?
         end;
  try discriminate Hev;
  try (injection Hev as <-).


(** X1. What [evaluate] returns carries COMMIT exactly when
    [commit_allowed] is set, never carries UNDO, asks for one approval
    under REQUIRE_APPROVAL and for none otherwise, and names its policy in
    the receipt. *)
Theorem evaluate_decision_matches_flag (call : ToolCall.t) (h : NuvallaHook.t)
    (ev : NuvallaEval) :
  evaluate call h = inr ev →
  decision ev ≠ UNDO
  ∧ (commit_allowed ev = true ↔ decision ev = COMMIT)
  ∧ required_approvals ev
    = (if decide (decision ev = REQUIRE_APPROVAL) then 1 else 0)%Z
  ∧ is_Some (receipt ev !! "policy").
Proof.
  intros Hev. evaluate_cases Hev; simpl;
    (split; [discriminate|]); (split; [split; (done || discriminate)|]);
    (split; [done|]); rewrite lookup_insert_eq; eauto.
Qed.

(** X3. Recording approvals never takes a decision back. After any
    further recordings the decision for a call is the one it had, except
    that REQUIRE_APPROVAL becomes COMMIT as soon as one recording was made
    under the call's own action id, whoever approved and in whatever role;
    a BLOCK stays a BLOCK and an exception stays the same exception. *)
Theorem approvals_only_unlock (call : ToolCall.t) (h : NuvallaHook.t)
    (recorded : list Approval.t) :
  match evaluate call h, evaluate call (feed_approvals recorded h) with
  | inr ev, inr ev' =>
      decision ev'
      = if bool_decide (decision ev = REQUIRE_APPROVAL)
           && negb (is_nil (filter (λ x, Approval.action_id x = ToolCall.action_id call)
                              recorded))
        then COMMIT else decision ev
  | inl e, inl e' => e = e'
  | _, _ => False
  end.
Proof.
  unfold evaluate. rewrite approvals_for_feed.
  generalize (approvals_for h (ToolCall.action_id call)).
  generalize (filter (λ x, Approval.action_id x = ToolCall.action_id call) recorded).
  intros own held.
  destruct (String.eqb (ToolCall.system call) "stripe"
            && String.eqb (ToolCall.operation call) "payment.execute").
  { destruct (py_int _) as [e|amt]; simpl; [done|].
    destruct (10000 <? amt)%Z, held, own; reflexivity. }
  destruct (String.eqb (ToolCall.system call) "netsuite"
            && String.eqb (ToolCall.operation call) "vendor.create").
  { destruct (negb _); reflexivity. }
  destruct (String.eqb (ToolCall.system call) "m365"
            && String.eqb (ToolCall.operation call) "email.send").
  { destruct (_ && _); [reflexivity|]. destruct (negb _); reflexivity. }
  destruct (String.eqb (ToolCall.system call) "ehr"
            && String.eqb (ToolCall.operation call) "medication.order").
  { destruct held, own; reflexivity. }
  reflexivity.
Qed.


Lemma pair_eqb_false (a b c d : string) :
  ¬ (a = b ∧ c = d) → String.eqb a b && String.eqb c d = false.
Proof.
  intros Hno. apply andb_false_iff.
  destruct (String.eqb a b) eqn:Hab; [|by left].
  destruct (String.eqb c d) eqn:Hcd; [|by right].
  apply String.eqb_eq in Hab, Hcd. by destruct Hno.
Qed.

(** X5. The fallback is to allow. A call whose system and operation are
    none of the four pairs the policy names is committed, whatever its
    params and whatever approvals are held: a known system with another
    operation is allowed like an unknown system. *)
Theorem unmatched_calls_are_allowed (call : ToolCall.t) (h : NuvallaHook.t) :
  ¬ (ToolCall.system call = "stripe" ∧ ToolCall.operation call = "payment.execute") →
  ¬ (ToolCall.system call = "netsuite" ∧ ToolCall.operation call = "vendor.create") →
  ¬ (ToolCall.system call = "m365" ∧ ToolCall.operation call = "email.send") →
  ¬ (ToolCall.system call = "ehr" ∧ ToolCall.operation call = "medication.order") →
  evaluate call h
  = inr {| decision := COMMIT;
           message := "Allowed (no matching restrictive policy)";
           commit_allowed := true;
           required_approvals := 0;
           receipt := <["policy" := VStr "default_allow"]> ∅ |}.
Proof.
  intros H1 H2 H3 H4. unfold evaluate.
  by rewrite !pair_eqb_false.
Qed.
End Policy.

(** ** The e-mail rule: the domain after the last ["@"] *)

Section EmailRule.
Import AMR AMR.NuvallaHook.






End EmailRule.

(** ** The mock world under arbitrary sequences of calls *)

Section World.
Import AMR.


Lemma apply_op_index_stable (op : LedgerOp) (self : MockSystems) (a ext : string) :
  idempotency self !! a = Some ext →
  idempotency (apply_op self op) !! a = Some ext.
Proof.
  intros Hin. destruct op as [env call|call e]; simpl.
  - unfold execute_direct.
    destruct (idempotency self !! ToolCall.action_id call) eqn:Hcall; simpl; [done|].
    rewrite lookup_insert_ne; [done|]. intros Heq. rewrite Heq in Hcall. congruence.
  - unfold undo. by destruct (get_record self (ToolCall.system call) e).
Qed.

Lemma apply_op_record_persists (op : LedgerOp) (self : MockSystems) (s e : string) :
  is_Some (get_record self s e) → is_Some (get_record (apply_op self op) s e).
Proof.
  intros Hrec. destruct op as [env call|call e']; simpl.
  - unfold execute_direct.
    destruct (idempotency self !! ToolCall.action_id call); simpl; [done|].
    rewrite state_store_lookup. case_decide; [done|]. by destruct self.
  - unfold undo.
    destruct (get_record self (ToolCall.system call) e') eqn:Hrec'; simpl; [|done].
    rewrite state_store_lookup. case_decide; [done|]. by destruct self.
Qed.



Lemma substring_length_le (n : nat) (s : string) :
  (String.length (String.substring 0 n s) ≤ n)%nat.
Proof.
  revert s. induction n as [|n IH]; intros [|a s]; simpl; try lia.
  specialize (IH s). lia.
Qed.

(** X7. In every world reached from the empty one by executions and
    undos, in any order and with any arguments, each action id of the
    index has a record: its external id reads [system:hex] with at most
    ten characters after the colon, and that system holds a record under
    that id. *)
Theorem indexed_actions_have_records (ops : list LedgerOp) (a ext : string) :
  idempotency (apply_ops ops MockSystems_init) !! a = Some ext →
  ∃ s hex, ext = s +:+ ":" +:+ hex
    ∧ (String.length hex ≤ 10)%nat
    ∧ is_Some (get_record (apply_ops ops MockSystems_init) s ext).
Proof.
  set (Inv := λ self : MockSystems, ∀ a ext,
         idempotency self !! a = Some ext →
         ∃ s hex, ext = s +:+ ":" +:+ hex ∧ (String.length hex ≤ 10)%nat
                  ∧ is_Some (get_record self s ext)).
  assert (Hstep : ∀ op self, Inv self → Inv (apply_op self op)).
  { intros op self Hinv a' ext' Hin.
    destruct op as [env call|call e]; simpl in *.
    - unfold execute_direct in *.
      destruct (idempotency self !! ToolCall.action_id call) eqn:Hcall; simpl in *.
      + exact (Hinv a' ext' Hin).
      + destruct (decide (a' = ToolCall.action_id call)) as [->|Hne].
        * rewrite lookup_insert_eq in Hin. injection Hin as <-.
          exists (ToolCall.system call), (String.substring 0 10 (uuid4_hex env)).
          split; [done|]. split; [apply substring_length_le|].
          rewrite state_store_lookup. by rewrite decide_True.
        * rewrite lookup_insert_ne in Hin by done.
          destruct (Hinv a' ext' Hin) as (s & hex & -> & Hlen & Hrec).
          exists s, hex. split; [done|]. split; [done|].
          rewrite state_store_lookup. case_decide; [done|]. by destruct self.
    - assert (Hidx : idempotency (undo call e self).2 = idempotency self).
      { unfold undo. by destruct (get_record self (ToolCall.system call) e). }
      rewrite Hidx in Hin.
      destruct (Hinv a' ext' Hin) as (s & hex & -> & Hlen & Hrec).
      exists s, hex. split; [done|]. split; [done|].
      by apply (apply_op_record_persists (OpUndo call e)). }
  assert (Hall : ∀ ops self, Inv self → Inv (apply_ops ops self)).
  { intros ops'. induction ops' as [|op ops' IH]; intros self Hinv; [done|].
    apply IH. by apply Hstep. }
  apply (Hall ops MockSystems_init). intros a' ext' Hin. discriminate Hin.
Qed.


(** X9. A compensated action is not executed again. After the first
    execution of an action and its undo, a retry under the same action id
    reports [ok = True] with the id of the deleted record, creates
    nothing, and the record stays deleted. *)
Theorem retry_after_undo_is_replay
    (env env' : Env) (call retry_call : ToolCall.t) (self : MockSystems) :
  idempotency self !! ToolCall.action_id call = None →
  ToolCall.action_id retry_call = ToolCall.action_id call →
  let ext := _new_id env (ToolCall.system call) in
  let undone := undo call ext (execute_direct env call self).2 in
  let retry := execute_direct env' retry_call undone.2 in
  undone.1 = UndoOk ("undo:" +:+ ext)
  ∧ retry.1 = {| ok := true; external_id := ext; idempotent_replay := true |}
  ∧ retry.2 = undone.2
  ∧ get_record retry.2 (ToolCall.system call) ext
    = Some (mark_deleted (fresh_record env call)).
Proof.
  intros Hnew Hid ext undone retry.
  assert (Hrec : get_record (execute_direct env call self).2 (ToolCall.system call) ext
                 = Some (fresh_record env call)).
  { rewrite execute_direct_first by done. simpl.
    rewrite state_store_lookup. by rewrite decide_True. }
  assert (Hundone : undone
                    = (UndoOk ("undo:" +:+ ext),
                       {| state := state_store (state (execute_direct env call self).2)
                                     (ToolCall.system call) ext
                                     (mark_deleted (fresh_record env call));
                          idempotency := idempotency (execute_direct env call self).2 |})).
  { subst undone. by rewrite (undo_found _ _ _ _ Hrec). }
  assert (Hin : idempotency undone.2 !! ToolCall.action_id retry_call = Some ext).
  { rewrite Hundone, Hid. simpl. rewrite execute_direct_first by done. simpl.
    apply lookup_insert_eq. }
  subst retry. rewrite (execute_direct_replay _ _ _ _ Hin). simpl.
  split_and!; [by rewrite Hundone | done | done |].
  rewrite Hundone. simpl. rewrite state_store_lookup. by rewrite decide_True.
Qed.
End World.

(** ** Runs over a trace *)

Section Runs.
Import AMR.

Lemma execute_direct_index_lookup (env : Env) (call : ToolCall.t)
    (self : MockSystems) (a : string) :
  is_Some (idempotency (execute_direct env call self).2 !! a)
  ↔ is_Some (idempotency self !! a) ∨ a = ToolCall.action_id call.
Proof.
  unfold execute_direct.
  destruct (idempotency self !! ToolCall.action_id call) eqn:Hcall; simpl.
  - split; [by left|]. intros [?| ->]; [done|]. by rewrite Hcall.
  - destruct (decide (a = ToolCall.action_id call)) as [->|Hne].
    + rewrite lookup_insert_eq. split; [by right|done].
    + rewrite lookup_insert_ne by done. split; [by left|]. by intros [?|?].
Qed.

Lemma run_trace_direct_length (env : nat → Env) (calls : list ToolCall.t)
    (self : MockSystems) :
  length (run_trace_direct_calls env calls self).1 = length calls.
Proof.
  revert env self. induction calls as [|c calls IH]; intros env self; [done|].
  simpl. destruct (execute_direct (env 0%nat) c self) as [r s1].
  specialize (IH (λ i, env (S i)) s1).
  destruct (run_trace_direct_calls (λ i, env (S i)) calls s1) as [rs s2].
  simpl in *. by rewrite IH.
Qed.

(** X10. In a direct run every call reports [ok = True], and a call is
    reported as a replay exactly when its action id was already in the
    index before the run or belongs to an earlier call of the run: the
    calls that really execute are the first occurrences of new ids. *)
Theorem direct_run_replays_repeated_ids
    (env : nat → Env) (calls : list ToolCall.t) (self : MockSystems)
    (i : nat) (c : ToolCall.t) (r : ExecResult) :
  calls !! i = Some c →
  (run_trace_direct_calls env calls self).1 !! i = Some r →
  ok r = true
  ∧ (idempotent_replay r = true
     ↔ is_Some (idempotency self !! ToolCall.action_id c)
       ∨ ToolCall.action_id c ∈ ToolCall.action_id <$> take i calls)
  ∧ length (run_trace_direct_calls env calls self).1 = length calls.
Proof.
  intros Hc Hr. split_and!; [| |apply run_trace_direct_length].
  - revert env self i Hc Hr.
    induction calls as [|c0 calls IH]; intros env self i Hc Hr; [done|].
    simpl in Hr.
    destruct (execute_direct (env 0%nat) c0 self) as [r0 s1] eqn:Hexec.
    destruct (run_trace_direct_calls (λ i, env (S i)) calls s1) as [rs s2] eqn:Hrest.
    destruct i as [|i]; simpl in Hc, Hr.
    + injection Hr as <-. unfold execute_direct in Hexec.
      destruct (idempotency self !! ToolCall.action_id c0);
        by injection Hexec as <- _.
    + apply (IH (λ i, env (S i)) s1 i Hc). by rewrite Hrest.
  - revert env self i Hc Hr.
    induction calls as [|c0 calls IH]; intros env self i Hc Hr; [done|].
    simpl in Hr.
    destruct (execute_direct (env 0%nat) c0 self) as [r0 s1] eqn:Hexec.
    destruct (run_trace_direct_calls (λ i, env (S i)) calls s1) as [rs s2] eqn:Hrest.
    destruct i as [|i]; simpl in Hc, Hr.
    + injection Hc as <-. injection Hr as <-.
      assert (r0 = (execute_direct (env 0%nat) c0 self).1) as -> by (by rewrite Hexec).
      unfold execute_direct.
      destruct (idempotency self !! ToolCall.action_id c0) eqn:Hin; simpl.
      * split; [by left|done].
      * split; [done|]. intros [[? ?]|Hel]; [done|]. by apply elem_of_nil in Hel.
    + rewrite (IH (λ i, env (S i)) s1 i Hc) by (by rewrite Hrest).
      assert (s1 = (execute_direct (env 0%nat) c0 self).2) as -> by (by rewrite Hexec).
      rewrite execute_direct_index_lookup. simpl take.
      rewrite fmap_cons, elem_of_cons. tauto.
Qed.

Lemma undo_index (call : ToolCall.t) (ext : string) (self : MockSystems) :
  idempotency (undo call ext self).2 = idempotency self.
Proof. unfold undo. by destruct (get_record self (ToolCall.system call) ext). Qed.

Lemma undo_record_persists (call : ToolCall.t) (ext : string) (self : MockSystems)
    (s e : string) :
  is_Some (get_record self s e) → is_Some (get_record (undo call ext self).2 s e).
Proof. apply (apply_op_record_persists (OpUndo call ext)). Qed.

Lemma execute_record_persists (env : Env) (call : ToolCall.t) (self : MockSystems)
    (s e : string) :
  is_Some (get_record self s e)
  → is_Some (get_record (execute_direct env call self).2 s e).
Proof. apply (apply_op_record_persists (OpExecute env call)). Qed.

Section AnyHook.
Context {H : Type} `{!Hook H}.

(** The world after one step is the world before it, or that world after
    the execution of the call, or after the execution and an undo. *)
Lemma nuvalla_step_world (env : Env) (call : ToolCall.t) (systems : MockSystems)
    (hook : H) :
  let systems' := (nuvalla_step env call systems hook).1.2 in
  systems' = systems
  ∨ systems' = (execute_direct env call systems).2
  ∨ ∃ ext, systems' = (undo call ext (execute_direct env call systems).2).2.
Proof.
  unfold nuvalla_step.
  destruct (hook_evaluate call hook) as [[e|ev] hook']; simpl; [by left|].
  destruct (bool_decide (decision ev = COMMIT) && commit_allowed ev); [|by left].
  destruct (execute_direct env call systems) as [er s1]; simpl.
  destruct (force_post_commit_failure call); [|by right; left].
  destruct (undo call (external_id er) s1) as [ur s2] eqn:Hundo. simpl.
  right; right. exists (external_id er). by rewrite Hundo.
Qed.

(** X11. A governed run, under any hook, never changes or removes an
    entry of the index, never removes a record, and adds index entries
    only for action ids of calls of the trace. *)
Theorem governed_run_touches_only_trace_actions
    (env : nat → Env) (calls : list ToolCall.t) (systems : MockSystems)
    (hook : H) (a : string) :
  let after := systems_after (run_calls env calls systems hook) in
  (∀ ext, idempotency systems !! a = Some ext → idempotency after !! a = Some ext)
  ∧ (∀ s e, is_Some (get_record systems s e) → is_Some (get_record after s e))
  ∧ (idempotency systems !! a = None → is_Some (idempotency after !! a) →
     a ∈ ToolCall.action_id <$> calls).
Proof.
  revert env systems hook. induction calls as [|c calls IH]; intros env systems hook.
  - simpl. split_and!; [done|done|]. intros Hnone [? Hsome]. congruence.
  - simpl.
    pose proof (nuvalla_step_world (env 0%nat) c systems hook) as Hworld.
    destruct (nuvalla_step (env 0%nat) c systems hook) as [[[e|out] s1] h1];
      simpl in Hworld |- *.
    + assert (Hidx : ∀ a', is_Some (idempotency s1 !! a')
                     → is_Some (idempotency systems !! a') ∨ a' = ToolCall.action_id c).
      { intros a'. destruct Hworld as [->|[->|[ext ->]]]; [by left| |].
        - apply execute_direct_index_lookup.
        - rewrite undo_index. apply execute_direct_index_lookup. }
      split_and!.
      * intros ext Hin. destruct Hworld as [->|[->|[ext' ->]]]; [done| |].
        -- by apply (apply_op_index_stable (OpExecute (env 0%nat) c)).
        -- rewrite undo_index.
           by apply (apply_op_index_stable (OpExecute (env 0%nat) c)).
      * intros s e0 Hrec. destruct Hworld as [->|[->|[ext' ->]]]; [done| |].
        -- by apply execute_record_persists.
        -- by apply undo_record_persists, execute_record_persists.
      * intros Hnone Hsome. destruct (Hidx a Hsome) as [[? Hin]| ->]; [congruence|].
        apply elem_of_cons. by left.
    + destruct (IH (λ i, env (S i)) s1 h1) as (Hstable & Hrecs & Hnew).
      assert (Hidx : ∀ a', is_Some (idempotency s1 !! a')
                     → is_Some (idempotency systems !! a') ∨ a' = ToolCall.action_id c).
      { intros a'. destruct Hworld as [->|[->|[ext ->]]]; [by left| |].
        - apply execute_direct_index_lookup.
        - rewrite undo_index. apply execute_direct_index_lookup. }
      split_and!.
      * intros ext Hin. apply Hstable.
        destruct Hworld as [->|[->|[ext' ->]]]; [done| |].
        -- by apply (apply_op_index_stable (OpExecute (env 0%nat) c)).
        -- rewrite undo_index.
           by apply (apply_op_index_stable (OpExecute (env 0%nat) c)).
      * intros s e Hrec. apply Hrecs.
        destruct Hworld as [->|[->|[ext' ->]]]; [done| |].
        -- by apply execute_record_persists.
        -- by apply undo_record_persists, execute_record_persists.
      * intros Hnone Hsome. rewrite ?fmap_cons, elem_of_cons.
        destruct (idempotency s1 !! a) as [ext1|] eqn:H1.
        -- destruct (Hidx a) as [[? Hin]| ->]; [by rewrite H1|congruence|by left].
        -- right. by apply Hnew.
Qed.
End AnyHook.
End Runs.

(** ** The governed run of FINTECH_ONLY *)

Section FintechRuns.
Import FO.

Lemma scheduled_at_elem (schedule : list (Z * Approval.t)) (k : Z) (a : Approval.t) :
  a ∈ scheduled_at schedule k ↔ (k, a) ∈ schedule.
Proof.
  unfold scheduled_at. rewrite list_elem_of_fmap. split.
  - intros ([k' a'] & -> & [Hk Hin]%list_elem_of_filter). simpl in *. by subst k'.
  - intros Hin. exists (k, a). split; [done|]. by apply list_elem_of_filter.
Qed.

Section AnyAdapter.
Context {A : Type} `{!Adapter A}.

Lemma replay_calls_delivered env (m : gmap Z (list Approval.t)) idx calls
    systems (adapter : A) (a : Approval.t) :
  a ∈ approvals_in (events (replay_calls env m idx calls systems adapter)) →
  ∃ j, (j < length calls)%nat ∧ a ∈ default [] (m !! (idx - 1 + Z.of_nat j)%Z).
Proof.
  revert env idx systems adapter.
  induction calls as [|c calls IH]; intros env idx systems adapter Hin.
  - by apply elem_of_nil in Hin.
  - simpl in Hin. unfold deliver in Hin.
    assert (Hhere : a ∈ default [] (m !! (idx - 1)%Z)
                    → ∃ j, (j < length (c :: calls))%nat
                           ∧ a ∈ default [] (m !! (idx - 1 + Z.of_nat j)%Z)).
    { intros Hdue. exists 0%nat. split; [simpl; lia|].
      by replace (idx - 1 + Z.of_nat 0)%Z with (idx - 1)%Z by lia. }
    destruct (governed_step (env 0%nat) c systems _) as [[[e|[rc cr]] s1] ad1];
      simpl in Hin; rewrite approvals_in_app, approvals_in_deliveries in Hin;
      apply elem_of_app in Hin as [Hdue|Hlater]; [by apply Hhere | | by apply Hhere |].
    + by apply elem_of_nil in Hlater.
    + change (approvals_in (EvCall c :: EvResult rc cr :: ?evs))
        with (approvals_in evs) in Hlater.
      destruct (IH _ _ _ _ Hlater) as (j & Hj & Hdue).
      exists (S j). split; [simpl; lia|].
      by replace (idx - 1 + Z.of_nat (S j))%Z with (idx + 1 - 1 + Z.of_nat j)%Z by lia.
Qed.

(** X12. The loop looks the schedule up at the indices from 0 to the
    number of calls and nowhere else: whatever a run delivers was put on
    the schedule at one of these indices, so an approval scheduled only at
    a negative index or beyond the number of calls is never delivered, and
    the run says nothing about it. *)
Theorem approvals_outside_steps_never_delivered
    (env : nat → Env) (schedule : list (Z * Approval.t))
    (calls : list ToolCall.t) (systems : MockSystems) (adapter : A)
    (a : Approval.t) :
  a ∈ approvals_in (events (replay_scheduled env schedule calls systems adapter)) →
  ∃ k, (0 ≤ k ≤ Z.of_nat (length calls))%Z ∧ (k, a) ∈ schedule.
Proof.
  unfold replay_scheduled.
  set (loop := replay_calls env (index_by_step schedule) 1 calls systems adapter).
  assert (Hloop : a ∈ approvals_in (events loop) →
                  ∃ k, (0 ≤ k ≤ Z.of_nat (length calls))%Z ∧ (k, a) ∈ schedule).
  { intros Hin. destruct (replay_calls_delivered _ _ _ _ _ _ _ Hin) as (j & Hj & Hdue).
    rewrite index_by_step_lookup in Hdue. apply scheduled_at_elem in Hdue.
    exists (1 - 1 + Z.of_nat j)%Z. split; [lia|done]. }
  destruct (raised loop); [done|].
  unfold deliver. simpl. rewrite approvals_in_app, approvals_in_deliveries.
  intros [Hin|Hlast]%elem_of_app; [by apply Hloop|].
  rewrite index_by_step_lookup in Hlast. apply scheduled_at_elem in Hlast.
  exists (Z.of_nat (length calls)). split; [lia|done].
Qed.

(** X13. What is printed as COMMITTED is what was executed. For the
    receipt and execution result one step hands to [print_nuvalla_result],
    the COMMITTED line is printed exactly when the call was executed, and
    it then shows the external id of the execution; this holds also for a
    call that carried the compensation flag and whose record the step
    deleted.  The COMPENSATED line is printed only for an UNDO decision of
    the adapter, for which the step executed and undid nothing. *)
Theorem committed_line_iff_executed
    (env : Env) (call : ToolCall.t) (systems : MockSystems)
    (adapter adapter' : A) (rc : NuvallaReceipt) :
  adapter_intercept call adapter = (inr rc, adapter') →
  ∃ commit_res systems',
    governed_step env call systems adapter = (inr (rc, commit_res), systems', adapter')
    ∧ ((∃ ext, (print_nuvalla_result rc commit_res).1 = PrintCommitted (message rc) ext)
       ↔ is_Some commit_res)
    ∧ (is_Some commit_res →
       (print_nuvalla_result rc commit_res).1
       = PrintCommitted (message rc) (Some (external_id (execute env call systems).1)))
    ∧ ((print_nuvalla_result rc commit_res).1 = PrintCompensated (message rc) →
       decision rc = UNDO ∧ commit_res = None ∧ systems' = systems).
Proof.
  intros Hic.
  destruct (decide (decision rc = COMMIT ∧ status rc = "success")) as [[Hd Hs]|Hno].
  - pose proof (governed_step_commit env call systems adapter rc adapter' Hic Hd Hs)
      as Hstep. simpl in Hstep.
    assert (Hline : ∀ cr, (print_nuvalla_result rc cr).1
                          = PrintCommitted (message rc) (external_id <$> cr)).
    { intros cr. unfold print_nuvalla_result. by rewrite Hs, Hd. }
    destruct (force_post_commit_failure call);
      (eexists _, _; split; [exact Hstep|]; rewrite Hline; simpl;
       split_and!; [split; eauto | done | discriminate]).
  - exists None, systems. split; [by apply governed_step_no_commit|].
    unfold print_nuvalla_result. simpl.
    destruct (String.eqb (status rc) "blocked") eqn:Hb; simpl.
    { split_and!; [split; [by intros [? ?] | by intros [? ?]]
                  | by intros [? ?] | discriminate]. }
    destruct (String.eqb (status rc) "pending_approval") eqn:Hp; simpl.
    { split_and!; [split; [by intros [? ?] | by intros [? ?]]
                  | by intros [? ?] | discriminate]. }
    destruct (bool_decide (decision rc = UNDO) && String.eqb (status rc) "success")
      eqn:Hu; simpl.
    { apply andb_true_iff in Hu as [Hu%bool_decide_eq_true _].
      split_and!; [split; [by intros [? ?] | by intros [? ?]]
                  | by intros [? ?] | done]. }
    destruct (bool_decide (decision rc = COMMIT) && String.eqb (status rc) "success")
      eqn:Hc; simpl.
    { apply andb_true_iff in Hc as [Hc%bool_decide_eq_true Hs%String.eqb_eq].
      by destruct Hno. }
    split_and!; [split; [by intros [? ?] | by intros [? ?]]
                | by intros [? ?] | discriminate].
Qed.
End AnyAdapter.

Lemma foldl_submit_shipped {E : Type} (adapter : NuvallaAdapter.t E)
    (due : list Approval.t) :
  foldl (λ ad a, adapter_submit_approval a ad) adapter due = adapter.
Proof. by induction due. Qed.

(** X14. With the adapter as shipped the governed run cannot get past
    its first call. On a trace with at least one call it submits the
    approvals of the timeline, prints the first call and ends with the
    [NotImplementedError] of [intercept]: nothing is executed, and
    [run_fintech_replay] stops at that trace, after its baseline if one
    was asked for.  On a trace without calls the run only delivers the
    approvals. *)
Theorem shipped_adapter_stops_at_first_call {E : Type}
    (env : nat → TraceEnv) (trace : ScenarioTrace) (more : list ScenarioTrace)
    (adapter : NuvallaAdapter.t E) (show_direct_baseline : bool) :
  replay_trace (after_env (env 0%nat)) trace adapter
  = match tool_calls trace with
    | [] => {| events := EvApproval <$> approvals_timeline trace;
               raised := None;
               systems_after := MockSystems_init;
               adapter_after := adapter |}
    | c :: _ => {| events := (EvApproval <$> approvals_timeline trace) ++ [EvCall c];
                   raised := Some NotImplementedError;
                   systems_after := MockSystems_init;
                   adapter_after := adapter |}
    end
  ∧ (tool_calls trace ≠ [] →
     run_fintech_replay env (trace :: more) adapter show_direct_baseline
     = [ {| baseline :=
              if show_direct_baseline
              then Some (baseline_calls (direct_env (env 0%nat)) (tool_calls trace)
                           MockSystems_init).1
              else None;
            governed := replay_trace (after_env (env 0%nat)) trace adapter |} ]).
Proof.
  assert (Hrun : replay_trace (after_env (env 0%nat)) trace adapter
                 = match tool_calls trace with
                   | [] => {| events := EvApproval <$> approvals_timeline trace;
                              raised := None;
                              systems_after := MockSystems_init;
                              adapter_after := adapter |}
                   | c :: _ =>
                       {| events := (EvApproval <$> approvals_timeline trace) ++ [EvCall c];
                          raised := Some NotImplementedError;
                          systems_after := MockSystems_init;
                          adapter_after := adapter |}
                   end).
  { unfold replay_trace. rewrite build_schedule_zero. unfold replay_scheduled.
    destruct (tool_calls trace) as [|c calls]; simpl; unfold deliver;
      rewrite index_by_step_lookup, scheduled_at_zero, foldl_submit_shipped;
      by rewrite decide_True. }
  split; [exact Hrun|].
  intros Hcalls. simpl. rewrite Hrun.
  destruct (tool_calls trace) as [|c calls]; [done|]. reflexivity.
Qed.
End FintechRuns.

(** ** What the loop of Agent_Misbehavior_Replay prints *)

Section Lines.
Import AMR AMR.NuvallaHook.

(** X15. The printed line follows the decision, not the execution. Under
    any hook, a COMMIT decision whose [commit_allowed] is false is printed
    as COMMITTED with no external id although nothing was executed, and
    this is the only way that line arises; an UNDO decision returned by
    the hook is printed as UNDO although the step executed and undid
    nothing. *)
Theorem committed_line_without_execution
    {H : Type} `{!Hook H}
    (env : Env) (call : ToolCall.t) (systems : MockSystems)
    (hook hook' : H) (ev : NuvallaEval) :
  hook_evaluate call hook = (inr ev, hook') →
  ∃ out systems',
    nuvalla_step env call systems hook = (inr out, systems', hook')
    ∧ ((print_nuvalla_response (evalr out) (exec_result out)).1
       = PrintCommitted (message ev) None
       ↔ decision ev = COMMIT ∧ commit_allowed ev = false)
    ∧ ((print_nuvalla_response (evalr out) (exec_result out)).1
       = PrintCommitted (message ev) None → systems' = systems)
    ∧ (decision ev = UNDO →
       (print_nuvalla_response (evalr out) (exec_result out)).1 = PrintUndo (message ev)
       ∧ exec_result out = None ∧ systems' = systems).
Proof.
  intros Hev.
  destruct (decide (decision ev = COMMIT ∧ commit_allowed ev = true)) as [[Hd Hc]|Hno].
  - pose proof (nuvalla_step_commit env call systems hook ev hook' Hev Hd Hc) as Hstep.
    simpl in Hstep.
    destruct (force_post_commit_failure call);
      (eexists _, _; split; [exact Hstep|]; unfold print_nuvalla_response; simpl;
       rewrite ?Hd; simpl;
       split_and!; [split; [discriminate | intros [_ ?]; congruence]
                   | discriminate | congruence]).
  - exists {| evalr := ev; exec_result := None |}, systems.
    split; [by apply nuvalla_step_no_commit|].
    unfold print_nuvalla_response. simpl.
    destruct (decision ev) eqn:Hd; simpl.
    + destruct (commit_allowed ev) eqn:Hc; [by destruct Hno|].
      split_and!; [done | done | discriminate].
    + split_and!; [split; [discriminate | intros [? _]; discriminate]
                  | discriminate | discriminate].
    + split_and!; [split; [discriminate | intros [? _]; discriminate]
                  | discriminate | discriminate].
    + split_and!; [split; [discriminate | intros [? _]; discriminate]
                  | discriminate | done].
Qed.

(** X16. With the shipped hook the printed line tells what happened to
    the world. BLOCKED and PENDING APPROVAL mean that nothing was
    executed; COMMITTED shows the external id of the execution that took
    place, on a call without the compensation flag; UNDO means that the
    call carried the flag, was executed, and was then passed to [undo]. *)
Theorem shipped_lines_tell_what_happened
    (env : Env) (call : ToolCall.t) (systems : MockSystems) (h : NuvallaHook.t) :
  match nuvalla_step env call systems h with
  | (inl _, systems', _) => systems' = systems
  | (inr out, systems', _) =>
      match (print_nuvalla_response (evalr out) (exec_result out)).1 with
      | PrintBlocked _ | PrintPendingApproval _ _ =>
          exec_result out = None ∧ systems' = systems
      | PrintCommitted _ ext =>
          ext = Some (external_id (execute_direct env call systems).1)
          ∧ systems' = (execute_direct env call systems).2
          ∧ force_post_commit_failure call = false
      | PrintUndo _ =>
          force_post_commit_failure call = true
          ∧ exec_result out = Some (execute_direct env call systems).1
          ∧ systems' = (undo call (external_id (execute_direct env call systems).1)
                          (execute_direct env call systems).2).2
      end
  end.
Proof.
  unfold nuvalla_step. simpl.
  destruct (evaluate call h) as [e|ev] eqn:Hev; [done|].
  assert (Hshape : (decision ev = COMMIT ∧ commit_allowed ev = true)
                   ∨ (decision ev = BLOCK ∧ commit_allowed ev = false)
                   ∨ (decision ev = REQUIRE_APPROVAL ∧ commit_allowed ev = false)).
  { unfold evaluate in Hev.
    repeat match type of Hev with
           | context [bind ?c _] => destruct c eqn:?; simpl in Hev
           | context [if ?b then _ else _] => destruct b eqn:?
           end;
      try discriminate Hev; injection Hev as <-; simpl; tauto. }
  destruct Hshape as [[Hd Hc]|[[Hd Hc]|[Hd Hc]]]; rewrite Hd, Hc; simpl.
  - destruct (execute_direct env call systems) as [er s1]. simpl.
    destruct (force_post_commit_failure call) eqn:Hflag.
    + destruct (undo call (external_id er) s1) as [ur s2]. simpl. done.
    + unfold print_nuvalla_response. simpl. rewrite Hd. done.
  - unfold print_nuvalla_response. simpl. by rewrite Hd.
  - unfold print_nuvalla_response. simpl. by rewrite Hd.
Qed.
End Lines.

(** ** A held payment, from pending to replay *)

Section HeldPayment.
Import AMR AMR.NuvallaHook.


End HeldPayment.

(** ** An identifier drawn twice *)

Section Collision.
Import AMR.

(** X17. [_new_id] does not look at the records a system already holds.
    When the identifier drawn for a new action is one that an earlier
    action of the same system holds, the execution writes over that
    action's record: both action ids then name the same external id and
    the same record, that of the later call. *)
Theorem colliding_id_overwrites_record
    (env : Env) (call : ToolCall.t) (self : MockSystems)
    (a ext : string) (rec : SysRecord) :
  idempotency self !! a = Some ext →
  get_record self (ToolCall.system call) ext = Some rec →
  idempotency self !! ToolCall.action_id call = None →
  _new_id env (ToolCall.system call) = ext →
  let self' := (execute_direct env call self).2 in
  idempotency self' !! a = Some ext
  ∧ idempotency self' !! ToolCall.action_id call = Some ext
  ∧ get_record self' (ToolCall.system call) ext = Some (fresh_record env call).
Proof.
  intros Ha Hrec Hnew Hext self'. subst self'.
  rewrite execute_direct_first by done. simpl. rewrite Hext. split_and!.
  - rewrite lookup_insert_ne; [done|]. intros Heq. rewrite Heq in Hnew. congruence.
  - apply lookup_insert_eq.
  - rewrite state_store_lookup. by rewrite decide_True.
Qed.
End Collision.

(** ** The further properties at sample inputs *)

Section FurtherSamples.
Import AMR AMR.NuvallaHook.

Lemma evaluate_decision_matches_flag_witness :
  ∃ ev, evaluate fin_t1_pay init = inr ev
    ∧ decision ev = REQUIRE_APPROVAL
    ∧ (commit_allowed ev = true ↔ decision ev = COMMIT)
    ∧ required_approvals ev = 1%Z.
Proof.
  eassert (Hev : evaluate fin_t1_pay init = inr _) by (vm_compute; reflexivity).
  eexists. split; [exact Hev|]. split; [reflexivity|].
  destruct (evaluate_decision_matches_flag _ _ _ Hev) as (_ & Hflag & Hneeded & _).
  split; [exact Hflag|exact Hneeded].
Defined.



Lemma unmatched_calls_are_allowed_witness :
  ToolCall.system stripe_refund = "stripe"
  ∧ ToolCall.operation stripe_refund ≠ "payment.execute"
  ∧ ∃ ev, evaluate stripe_refund init = inr ev
      ∧ decision ev = COMMIT
      ∧ receipt ev !! "policy" = Some (VStr "default_allow").
Proof.
  split; [reflexivity|]. split; [discriminate|].
  eexists. split.
  - apply (unmatched_calls_are_allowed stripe_refund init);
      intros [Hs Ho]; (discriminate Hs || discriminate Ho).
  - split; reflexivity.
Defined.


Lemma indexed_actions_have_records_witness :
  let ops := [OpExecute (sample_env 0) fin_t5_pay;
              OpUndo fin_t5_pay "stripe:0f3a9c2e47";
              OpExecute (sample_env 1) ins_t1_pay] in
  idempotency (apply_ops ops MockSystems_init) !! "fin_t5_pay" = Some "stripe:0f3a9c2e47"
  ∧ ∃ s hex, "stripe:0f3a9c2e47" = s +:+ ":" +:+ hex
      ∧ is_Some (get_record (apply_ops ops MockSystems_init) s "stripe:0f3a9c2e47").
Proof.
  intros ops.
  assert (Hin : idempotency (apply_ops ops MockSystems_init) !! "fin_t5_pay"
                = Some "stripe:0f3a9c2e47") by reflexivity.
  split; [exact Hin|].
  destruct (indexed_actions_have_records ops _ _ Hin) as (s & hex & Hext & _ & Hrec).
  by exists s, hex.
Defined.


Lemma retry_after_undo_is_replay_witness :
  idempotency MockSystems_init !! ToolCall.action_id ins_t1_pay = None
  ∧ get_record
      (execute_direct (sample_env 1) ins_t1_pay
         (undo ins_t1_pay "stripe:0f3a9c2e47"
            (execute_direct (sample_env 0) ins_t1_pay MockSystems_init).2).2).2
      "stripe" "stripe:0f3a9c2e47"
    = Some (mark_deleted (fresh_record (sample_env 0) ins_t1_pay)).
Proof.
  assert (Hnew : idempotency MockSystems_init !! ToolCall.action_id ins_t1_pay = None)
    by reflexivity.
  split; [exact Hnew|].
  exact (proj2 (proj2 (proj2
           (retry_after_undo_is_replay (sample_env 0) (sample_env 1) ins_t1_pay
              ins_t1_pay MockSystems_init Hnew eq_refl)))).
Defined.

Lemma direct_run_replays_repeated_ids_witness :
  [fin_t5_pay; fin_t5_pay] !! 1%nat = Some fin_t5_pay
  ∧ idempotent_replay <$>
      (run_trace_direct_calls sample_env [fin_t5_pay; fin_t5_pay] MockSystems_init).1
        !! 1%nat
    = Some true.
Proof.
  split; [reflexivity|].
  destruct ((run_trace_direct_calls sample_env [fin_t5_pay; fin_t5_pay]
               MockSystems_init).1 !! 1%nat) as [r|] eqn:Hr;
    [|vm_compute in Hr; discriminate Hr].
  destruct (direct_run_replays_repeated_ids sample_env [fin_t5_pay; fin_t5_pay]
              MockSystems_init 1 fin_t5_pay r eq_refl Hr) as (_ & Hrep & _).
  simpl. f_equal. apply Hrep. right.
  apply elem_of_cons. by left.
Defined.

Lemma governed_run_touches_only_trace_actions_witness :
  let before := (execute_direct (sample_env 2) fin_t1_pay MockSystems_init).2 in
  idempotency before !! "fin_t1_pay" = Some "stripe:2f3a9c2e47"
  ∧ idempotency
      (systems_after (run_calls sample_env [fin_t5_pay; ins_t1_pay] before init))
      !! "fin_t1_pay"
    = Some "stripe:2f3a9c2e47".
Proof.
  intros before.
  assert (Hin : idempotency before !! "fin_t1_pay" = Some "stripe:2f3a9c2e47")
    by reflexivity.
  split; [exact Hin|].
  exact (proj1 (governed_run_touches_only_trace_actions sample_env
                  [fin_t5_pay; ins_t1_pay] before init "fin_t1_pay") _ Hin).
Defined.

Lemma colliding_id_overwrites_record_witness :
  let self := (execute_direct (sample_env 0) fin_t5_pay MockSystems_init).2 in
  idempotency self !! "fin_t5_pay" = Some "stripe:0f3a9c2e47"
  ∧ _new_id (sample_env 10) (ToolCall.system ins_t1_pay) = "stripe:0f3a9c2e47"
  ∧ get_record (execute_direct (sample_env 10) ins_t1_pay self).2
      "stripe" "stripe:0f3a9c2e47"
    = Some (fresh_record (sample_env 10) ins_t1_pay).
Proof.
  intros self.
  assert (Ha : idempotency self !! "fin_t5_pay" = Some "stripe:0f3a9c2e47")
    by reflexivity.
  assert (Hext : _new_id (sample_env 10) (ToolCall.system ins_t1_pay)
                 = "stripe:0f3a9c2e47") by reflexivity.
  split; [exact Ha|]. split; [exact Hext|].
  exact (proj2 (proj2
           (colliding_id_overwrites_record (sample_env 10) ins_t1_pay self
              "fin_t5_pay" "stripe:0f3a9c2e47" (fresh_record (sample_env 0) fin_t5_pay)
              Ha eq_refl eq_refl Hext))).
Defined.


Lemma committed_line_without_execution_witness :
  ∃ out systems',
    nuvalla_step (sample_env 0) fin_t5_pay MockSystems_init init
    = (inr out, systems', init)
    ∧ (print_nuvalla_response (evalr out) (exec_result out)).1
      ≠ PrintCommitted "Payment $850 allowed (policy ok)" None.
Proof.
  eassert (Hev : hook_evaluate fin_t5_pay init = (inr _, init))
    by (vm_compute; reflexivity).
  destruct (committed_line_without_execution (sample_env 0) fin_t5_pay
              MockSystems_init _ _ _ Hev) as (out & s' & Hstep & Hline & _).
  exists out, s'. split; [exact Hstep|].
  intros Hnone. apply Hline in Hnone as [_ Hc]. discriminate Hc.
Defined.
End FurtherSamples.

Section FurtherFintechSamples.
Import FO.

Lemma approvals_outside_steps_never_delivered_witness :
  let r := replay_scheduled sample_env sample_schedule [fin_t5_pay; fin_t1_pay]
             MockSystems_init
             (scripted [scripted_receipt COMMIT "success";
                        scripted_receipt PENDING "pending_approval"]) in
  hlth_t1_med_approval ∈ approvals_in (events r)
  ∧ ∃ k, (0 ≤ k ≤ 2)%Z ∧ (k, hlth_t1_med_approval) ∈ sample_schedule.
Proof.
  intros r.
  assert (Hin : hlth_t1_med_approval ∈ approvals_in (events r)).
  { assert (Hlog : approvals_in (events r)
                   = [fin_t1_pay_approval; second_approval; hlth_t1_med_approval;
                      fin_t1_pay_approval]) by reflexivity.
    rewrite Hlog. apply elem_of_cons. right. apply elem_of_cons. right.
    apply elem_of_cons. by left. }
  split; [exact Hin|].
  exact (approvals_outside_steps_never_delivered _ _ _ _ _ _ Hin).
Defined.

Lemma committed_line_iff_executed_witness :
  adapter_intercept ins_t1_pay (scripted [scripted_receipt COMMIT "success"])
  = (inr (scripted_receipt COMMIT "success"), scripted [])
  ∧ ∃ commit_res systems',
      governed_step (sample_env 0) ins_t1_pay MockSystems_init
        (scripted [scripted_receipt COMMIT "success"])
      = (inr (scripted_receipt COMMIT "success", commit_res), systems', scripted [])
      ∧ (print_nuvalla_result (scripted_receipt COMMIT "success") commit_res).1
        = PrintCommitted "scripted" (Some "stripe:0f3a9c2e47").
Proof.
  assert (Hic : adapter_intercept ins_t1_pay (scripted [scripted_receipt COMMIT "success"])
                = (inr (scripted_receipt COMMIT "success"), scripted []))
    by reflexivity.
  split; [exact Hic|].
  destruct (committed_line_iff_executed (sample_env 0) ins_t1_pay MockSystems_init
              _ _ _ Hic) as (cr & s' & Hstep & Hiff & Hline & _).
  exists cr, s'. split; [exact Hstep|].
  apply Hline. apply Hiff.
  assert (Hcr : cr = Some {| ok := true; external_id := "stripe:0f3a9c2e47";
                             idempotent_replay := false |}).
  { vm_compute in Hstep. by injection Hstep as <- _. }
  rewrite Hcr. by eexists.
Defined.

Lemma shipped_adapter_stops_at_first_call_witness :
  let trace := sample_fintech_trace [fin_t5_pay; fin_t1_pay] [fin_t1_pay_approval] in
  let env := λ _ : nat, {| direct_env := sample_env; after_env := sample_env |} in
  tool_calls trace ≠ []
  ∧ raised <$> (governed <$>
      run_fintech_replay env [trace; trace] (NuvallaAdapter.mk tt) true)
    = [Some NotImplementedError].
Proof.
  intros trace env.
  assert (Hcalls : tool_calls trace ≠ []) by discriminate.
  split; [exact Hcalls|].
  destruct (shipped_adapter_stops_at_first_call env trace [trace]
              (NuvallaAdapter.mk tt) true) as [Hrun Hall].
  rewrite (Hall Hcalls), Hrun. reflexivity.
Defined.
End FurtherFintechSamples.
